(** * MySQL Router charm: relation endpoints

    A shallow embedding of [src/relations/database_provides.py],
    [src/relations/database_requires.py] and of the leader branch of
    [src/main.py], with the properties of credential reconciliation,
    upstream resolution and status reporting that the design document states
    about them.

    Python dictionaries (relation databags) are finite maps from strings to
    strings.  The local databag of a relation is a mutable object shared by
    every wrapper built around that relation, so the local databags live in a
    store indexed by relation id; the remote databag is only ever read.
    Calls to the MySQL shell are recorded in a log, and each may fail. *)

From Stdlib Require Import Ascii.
From stdpp Require Import gmap strings list fin_maps pretty.

Open Scope string_scope.

(** ** The [charm] API, as the relation code uses it *)

(** Modelled from the spec: the [charm] package is not part of the sources;
    reported statuses are one of Active, Waiting, Blocked, Maintenance, each
    with a human-readable message. *)
Inductive Status :=
| ActiveStatus
| WaitingStatus (message : string)
| BlockedStatus (message : string)
| MaintenanceStatus (message : string).

(** The Python values that the relation code passes as the first argument of
    an exception and later hands out as a "status": a [charm.Status] object,
    or a plain [str]. *)
Inductive value :=
| VStatus (s : Status)
| VStr (s : string).

(** Modelled from the spec: [charm.RemoteRelation] is not part of the
    sources.  A relationship has an id, the name of the remote application, a
    flag telling that it is about to be torn down and the bag of the remote
    side; all bags are string-valued.  The local bag [my_app] is in the store
    below. *)
Record RemoteRelation := {
  id : Z;
  _remote_app_name : string;
  breaking : bool;
  remote_app : gmap string string;
}.

(** Backend calls issued through [mysql_shell.Shell]. *)
Inductive Call :=
| CreateUser (username database : string)
| DeleteUser (username : string).

(** The mutable world: local databags by relation id and the log of backend
    calls issued so far. *)
Record State := {
  bags : gmap Z (gmap string string);
  calls : list Call;
}.

(** [relation.my_app]; a relation that was never written has an empty bag. *)
Definition my_app (st : State) (relation : RemoteRelation) : gmap string string :=
  bags st !!! id relation.

Definition set_bag (relation : RemoteRelation) (bag : gmap string string) (st : State) : State :=
  {| bags := <[id relation := bag]> (bags st); calls := calls st |}.

(** ** State and exception monad *)

Inductive result (E A : Type) :=
| Ok (a : A)
| Raise (e : E).
Arguments Ok {E A} a.
Arguments Raise {E A} e.

Definition M (E A : Type) : Type := State -> State * result E A.

Definition ret {E A} (a : A) : M E A := fun st => (st, Ok a).
Definition raise {E A} (e : E) : M E A := fun st => (st, Raise e).
Definition bind {E A B} (m : M E A) (k : A -> M E B) : M E B :=
  fun st => match m st with
            | (st', Ok a) => k a st'
            | (st', Raise e) => (st', Raise e)
            end.

Declare Scope py_scope.
Delimit Scope py_scope with py.
Notation "x <- m ;; k" := (bind m (fun x => k))
  (at level 100, m at next level, right associativity) : py_scope.
Notation "m ;;; k" := (bind m (fun _ => k))
  (at level 100, right associativity) : py_scope.
Open Scope py_scope.

(** [for x in l: body(x)] *)
Fixpoint for_ {E A} (l : list A) (body : A -> M E unit) : M E unit :=
  match l with
  | [] => ret tt
  | x :: l' => body x ;;; for_ l' body
  end.

(** [relation.my_app[key] = v] *)
Definition setitem {E} (relation : RemoteRelation) (key v : string) : M E unit :=
  fun st => (set_bag relation (<[key := v]> (my_app st relation)) st, Ok tt).

(** [relation.my_app.clear()] *)
Definition clear {E} (relation : RemoteRelation) : M E unit :=
  fun st => (set_bag relation ∅ st, Ok tt).

(** Python truthiness of [dict.get(key)]: the key is there and its value is
    not the empty string. *)
Definition truthy (v : option string) : bool :=
  match v with
  | Some (String _ _) => true
  | _ => false
  end.

(** [str.split(sep)] for a separator of one character. *)
Fixpoint split (sep : Ascii.ascii) (s : string) : list string :=
  match s with
  | EmptyString => [EmptyString]
  | String c s' =>
      if Ascii.eqb c sep then EmptyString :: split sep s'
      else match split sep s' with
           | [] => [String c EmptyString]
           | h :: t => String c h :: t
           end
  end.

(** ** [mysql_shell] *)

Module mysql_shell.

(** The only failure of a shell operation. *)
Inductive exn := AdminOperationFailed.

(** Modelled from the spec: [mysql_shell.Shell] is not part of the sources.
    [create_application_database_and_user] creates the user and the
    database and returns the generated password, [delete_user] removes a
    user; both are synchronous and either may fail.  What the backend
    answers can depend on the calls it has seen. *)
Record Shell := {
  username : string;
  create_answer : list Call -> string -> string -> option string;
  delete_answer : list Call -> string -> bool;
}.

Definition log (c : Call) (st : State) : State :=
  {| bags := bags st; calls := calls st ++ [c] |}.

Definition create_application_database_and_user
    (shell : Shell) (username database : string) : M exn string :=
  fun st =>
    match create_answer shell (calls st) username database with
    | Some password => (log (CreateUser username database) st, Ok password)
    | None => (log (CreateUser username database) st, Raise AdminOperationFailed)
    end.

Definition delete_user (shell : Shell) (username : string) : M exn unit :=
  fun st =>
    if delete_answer shell (calls st) username
    then (log (DeleteUser username) st, Ok tt)
    else (log (DeleteUser username) st, Raise AdminOperationFailed).

End mysql_shell.

(** ** [relations/database_provides.py] *)

Module database_provides.

Definition _ENDPOINT_NAME : string := "database".

Inductive exn :=
| _IncompleteDatabag (args : list value)
| _RelationBreaking (args : list value)
| _UnsupportedExtraUserRole (args : list value).

Definition args (e : exn) : list value :=
  match e with
  | _IncompleteDatabag a | _RelationBreaking a | _UnsupportedExtraUserRole a => a
  end.

Inductive exn_type :=
| T_IncompleteDatabag
| T_RelationBreaking
| T_UnsupportedExtraUserRole.

Definition isinstance (e : exn) (t : exn_type) : bool :=
  match e, t with
  | _IncompleteDatabag _, T_IncompleteDatabag => true
  | _RelationBreaking _, T_RelationBreaking => true
  | _UnsupportedExtraUserRole _, T_UnsupportedExtraUserRole => true
  | _, _ => false
  end.

(** [_Relation._get_username] *)
Definition _get_username (self : RemoteRelation) (database_requires_username : string)
  : string :=
  database_requires_username +:+ "-" +:+ pretty (id self).

(** Modelled from the spec: [charm.RemoteRelation.__eq__] is not part of the
    sources; "in requested" and "in existing" compare relations by their
    relation id. *)
Definition relation_eqb (a b : RemoteRelation) : bool :=
  bool_decide (id a = id b).

Record _RelationThatRequestedUser := {
  requested_relation : RemoteRelation;
  _database : string;
}.

Definition _RelationThatRequestedUser__init__ (relation : RemoteRelation)
  : result exn _RelationThatRequestedUser :=
  if breaking relation then Raise (_RelationBreaking [])
  else match remote_app relation !! "database" with
       | None =>
           Raise (_IncompleteDatabag
                    [VStatus (WaitingStatus
                       ("Waiting for " +:+ _remote_app_name relation
                        +:+ " app on " +:+ _ENDPOINT_NAME +:+ " endpoint"))])
       | Some database =>
           if truthy (remote_app relation !! "extra-user-roles")
           then Raise (_UnsupportedExtraUserRole
                         [VStr (_remote_app_name relation
                                +:+ " app requested unsupported extra user role on "
                                +:+ _ENDPOINT_NAME +:+ " endpoint")])
           else Ok {| requested_relation := relation; _database := database |}
       end.

Definition create_database_and_user (self : _RelationThatRequestedUser)
    (router_read_write_endpoint router_read_only_endpoint : string)
    (shell : mysql_shell.Shell) : M mysql_shell.exn unit :=
  let relation := requested_relation self in
  let username := _get_username relation (mysql_shell.username shell) in
  password <- mysql_shell.create_application_database_and_user
                shell username (_database self) ;;
  setitem relation "database" (_database self) ;;;
  setitem relation "username" username ;;;
  setitem relation "password" password ;;;
  setitem relation "endpoints" router_read_write_endpoint ;;;
  setitem relation "read-only-endpoints" router_read_only_endpoint.

Definition grant_keys : list string :=
  ["database"; "username"; "password"; "endpoints"; "read-only-endpoints"].

(** No key of the loop in [_RelationWithCreatedUser.__init__] is missing. *)
Definition has_all_keys (bag : gmap string string) : bool :=
  forallb (fun key => bool_decide (is_Some (bag !! key))) grant_keys.

Record _RelationWithCreatedUser := {
  created_relation : RemoteRelation;
}.

(** [None] stands for [raise _UserNotCreated]. *)
Definition _RelationWithCreatedUser__init__ (st : State) (relation : RemoteRelation)
  : option _RelationWithCreatedUser :=
  if has_all_keys (my_app st relation)
  then Some {| created_relation := relation |}
  else None.

Definition delete_databag {E} (self : _RelationWithCreatedUser) : M E unit :=
  clear (created_relation self).

Definition delete_user (self : _RelationWithCreatedUser) (shell : mysql_shell.Shell)
  : M mysql_shell.exn unit :=
  delete_databag self ;;;
  mysql_shell.delete_user shell
    (_get_username (created_relation self) (mysql_shell.username shell)).

(** [_created_users()], over the relations of the endpoint. *)
Definition _created_users {E} (endpoint : list RemoteRelation)
  : M E (list _RelationWithCreatedUser) :=
  fun st => (st, Ok (omap (_RelationWithCreatedUser__init__ st) endpoint)).

(** The first loop of [reconcile_users] and of [get_status]: the relations
    whose constructor did not raise. *)
Definition requested (endpoint : list RemoteRelation) : list _RelationThatRequestedUser :=
  omap (fun relation =>
          match _RelationThatRequestedUser__init__ relation with
          | Ok user => Some user
          | Raise _ => None
          end) endpoint.

Definition rel_in (relation : RemoteRelation) (l : list RemoteRelation) : bool :=
  existsb (relation_eqb relation) l.

Definition reconcile_users (endpoint : list RemoteRelation)
    (router_read_write_endpoint router_read_only_endpoint : string)
    (shell : mysql_shell.Shell) : M mysql_shell.exn unit :=
  let requested_users := requested endpoint in
  for_ requested_users (fun relation =>
    created <- _created_users endpoint ;;
    if negb (rel_in (requested_relation relation) (created_relation <$> created))
    then create_database_and_user relation
           router_read_write_endpoint router_read_only_endpoint shell
    else ret tt) ;;;
  created <- _created_users endpoint ;;
  for_ created (fun relation =>
    if negb (rel_in (created_relation relation) (requested_relation <$> requested_users))
    then delete_user relation shell
    else ret tt).

Definition delete_all_databags {E} (endpoint : list RemoteRelation) : M E unit :=
  created <- _created_users endpoint ;;
  for_ created (fun relation => delete_databag relation).

(** The exceptions that the scan of [get_status] keeps. *)
Definition exception_reporting_priority : list exn_type :=
  [T_UnsupportedExtraUserRole; T_IncompleteDatabag].

Definition collected (endpoint : list RemoteRelation) : list exn :=
  omap (fun relation =>
          match _RelationThatRequestedUser__init__ relation with
          | Ok _ => None
          | Raise e =>
              if isinstance e T_RelationBreaking then None
              else if existsb (isinstance e) exception_reporting_priority
                   then Some e else None
          end) endpoint.

(** Python failures of [get_status] itself. *)
Inductive py_error := IndexError.

(** The two nested loops over [exception_reporting_priority] and
    [exceptions], leaving at the first [return]. *)
Fixpoint first_reported (types : list exn_type) (exceptions : list exn)
  : option exn :=
  match types with
  | [] => None
  | exception_type :: types' =>
      match find (fun e => isinstance e exception_type) exceptions with
      | Some e => Some e
      | None => first_reported types' exceptions
      end
  end.

Definition get_status (endpoint : list RemoteRelation)
  : result py_error (option value) :=
  let requested_users := requested endpoint in
  let exceptions := collected endpoint in
  match first_reported exception_reporting_priority exceptions with
  | Some e =>
      match args e with
      | v :: _ => Ok (Some v)
      | [] => Raise IndexError
      end
  | None =>
      match requested_users with
      | [] => Ok (Some (VStatus (BlockedStatus ("Missing relation: " +:+ _ENDPOINT_NAME))))
      | _ :: _ => Ok None
      end
  end.

End database_provides.

(** ** [relations/database_requires.py] *)

Module database_requires.

Definition _ENDPOINT_NAME : string := "backend-database".

(** The exceptions that can leave [ConnectionInformation.__init__]: the
    three classes of the module and the built-in ones. *)
Inductive exn :=
| _IncompleteDatabag (args : list value)
| _MissingRelation (args : list value)
| _RelationBreaking (args : list value)
| KeyError (args : list value)
| AssertionError
| IndexError.

Definition args (e : exn) : list value :=
  match e with
  | _IncompleteDatabag a | _MissingRelation a | _RelationBreaking a | KeyError a => a
  | AssertionError | IndexError => []
  end.

Inductive exn_type :=
| T_IncompleteDatabag
| T_MissingRelation
| T_RelationBreaking
| T_KeyError
| T_AssertionError
| T_IndexError.

(** [class _IncompleteDatabag(KeyError)] and
    [class _RelationBreaking(_MissingRelation)]. *)
Definition isinstance (e : exn) (t : exn_type) : bool :=
  match e, t with
  | _IncompleteDatabag _, (T_IncompleteDatabag | T_KeyError) => true
  | _MissingRelation _, T_MissingRelation => true
  | _RelationBreaking _, (T_RelationBreaking | T_MissingRelation) => true
  | KeyError _, T_KeyError => true
  | AssertionError, T_AssertionError => true
  | IndexError, T_IndexError => true
  | _, _ => false
  end.

(** [_MissingRelation.__init__], which [_RelationBreaking] inherits. *)
Definition _MissingRelation__init__args : list value :=
  [VStatus (BlockedStatus ("Missing relation: " +:+ _ENDPOINT_NAME))].

Record ConnectionInformation := {
  host : string;
  port : string;
  username : string;
  password : string;
}.

(** [bag[key]] *)
Definition getitem (bag : gmap string string) (key : string) : M exn string :=
  match bag !! key with
  | Some v => ret v
  | None => raise (KeyError [VStr key])
  end.

(** [assert b] *)
Definition assert (b : bool) : M exn unit :=
  if b then ret tt else raise AssertionError.

(** [l[i]] *)
Definition index (l : list string) (i : nat) : M exn string :=
  match l !! i with
  | Some x => ret x
  | None => raise IndexError
  end.

(** [try: body  except t: handler] *)
Definition try_except {A} (body : M exn A) (t : exn_type) (handler : M exn A)
  : M exn A :=
  fun st => match body st with
            | (st', Raise e) => if isinstance e t then handler st' else (st', Raise e)
            | r => r
            end.

Definition ConnectionInformation__init__ (is_leader : bool)
    (relations : list RemoteRelation) : M exn ConnectionInformation :=
  match relations with
  | [] => raise (_MissingRelation _MissingRelation__init__args)
  | relation :: _ =>
      assert (length relations =? 1)%nat ;;;
      (if is_leader
       then setitem relation "database" "mysql_innodb_cluster_metadata" ;;;
            setitem relation "extra-user-roles" "mysqlrouter"
       else ret tt) ;;;
      (if breaking relation
       then raise (_RelationBreaking _MissingRelation__init__args)
       else ret tt) ;;;
      try_except
        (endpoints_value <- getitem (remote_app relation) "endpoints" ;;
         let endpoints := split "," endpoints_value in
         assert (length endpoints =? 1)%nat ;;;
         endpoint <- index endpoints 0 ;;
         host <- index (split ":" endpoint) 0 ;;
         port <- index (split ":" endpoint) 1 ;;
         username <- getitem (remote_app relation) "username" ;;
         password <- getitem (remote_app relation) "password" ;;
         ret {| host := host; port := port;
                username := username; password := password |})
        T_KeyError
        (raise (_IncompleteDatabag
                  [VStatus (WaitingStatus
                     ("Waiting for " +:+ _remote_app_name relation
                      +:+ " app on " +:+ _ENDPOINT_NAME +:+ " endpoint"))]))
  end.

(** The module-level variables set when the module is loaded. *)
Record Resolution := {
  connection_info : option ConnectionInformation;
  relation_breaking : bool;
  status : option value;
}.

(** The module-level [try ... except (_MissingRelation, _IncompleteDatabag)];
    every other exception leaves the module. *)
Definition resolution (is_leader : bool) (relations : list RemoteRelation)
  : M exn Resolution :=
  fun st =>
    match ConnectionInformation__init__ is_leader relations st with
    | (st', Ok info) =>
        (st', Ok {| connection_info := Some info;
                    relation_breaking := false;
                    status := None |})
    | (st', Raise e) =>
        if isinstance e T_MissingRelation || isinstance e T_IncompleteDatabag
        then match args e with
             | v :: _ =>
                 (st', Ok {| connection_info := None;
                             relation_breaking := isinstance e T_RelationBreaking;
                             status := Some v |})
             | [] => (st', Raise IndexError)
             end
        else (st', Raise e)
    end.

End database_requires.

(** ** [main.py]: what the leader does to the downstream relations *)

Module main.

Definition reconcile (is_leader relation_breaking authenticated container_ready : bool)
    (endpoint : list RemoteRelation)
    (router_read_write_endpoint router_read_only_endpoint : string)
    (shell : mysql_shell.Shell) : M mysql_shell.exn unit :=
  if is_leader then
    if relation_breaking then database_provides.delete_all_databags endpoint
    else if authenticated && container_ready
         then database_provides.reconcile_users endpoint
                router_read_write_endpoint router_read_only_endpoint shell
         else ret tt
  else ret tt.

(** What runs before the leader's branch: loading
    [relations.database_requires] resolves the upstream connection, and an
    install or remove event is handled without reconciling. *)
Inductive Event := InstallEvent | RemoveEvent | OtherEvent.

(** An exception that leaves [main.py]: from upstream resolution, or from the
    backend. *)
Inductive exn :=
| RequiresError (e : database_requires.exn)
| ShellError (e : mysql_shell.exn).

Definition lift {E E' A} (f : E -> E') (m : M E A) : M E' A :=
  fun st => match m st with
            | (st', Ok a) => (st', Ok a)
            | (st', Raise e) => (st', Raise (f e))
            end.

(** [workload_.shell]: the shell of an authenticated workload logs in with
    the username of the connection information; how the backend answers is
    not the charm's doing. *)
Definition shell (connection_info : database_requires.ConnectionInformation)
    (create_answer : list Call -> string -> string -> option string)
    (delete_answer : list Call -> string -> bool) : mysql_shell.Shell :=
  {| mysql_shell.username := database_requires.username connection_info;
     mysql_shell.create_answer := create_answer;
     mysql_shell.delete_answer := delete_answer |}.

(** [main.py] up to the end of the leader's branch.  The workload is an
    authenticated one exactly when [connection_info] is set.  What follows in
    [main.py] (enabling or disabling the workload, setting the statuses)
    writes no relation bag. *)
Definition relations_phase (event : Event) (is_leader container_ready : bool)
    (upstream downstream : list RemoteRelation)
    (router_read_write_endpoint router_read_only_endpoint : string)
    (create_answer : list Call -> string -> string -> option string)
    (delete_answer : list Call -> string -> bool) : M exn unit :=
  resolved <- lift RequiresError (database_requires.resolution is_leader upstream) ;;
  match event with
  | InstallEvent | RemoveEvent => ret tt
  | OtherEvent =>
      lift ShellError
        (if is_leader then
           if database_requires.relation_breaking resolved
           then database_provides.delete_all_databags downstream
           else match database_requires.connection_info resolved with
                | Some connection_info =>
                    if container_ready
                    then database_provides.reconcile_users downstream
                           router_read_write_endpoint router_read_only_endpoint
                           (shell connection_info create_answer delete_answer)
                    else ret tt
                | None => ret tt
                end
         else ret tt)
  end.

End main.

(** ** [abstract_charm.py]: choosing the status to report *)

Module abstract_charm.

(** The status classes of [ops], all subclasses of [ops.StatusBase]; the last
    constructor stands for any other subclass, such as [UnknownStatus]. *)
Inductive StatusBase :=
| ActiveStatus (message : string)
| BlockedStatus (message : string)
| WaitingStatus (message : string)
| MaintenanceStatus (message : string)
| OtherStatus (name message : string).

Inductive status_type :=
| T_BlockedStatus
| T_WaitingStatus
| T_MaintenanceStatus
| T_StatusBase.

Definition isinstance (status : StatusBase) (t : status_type) : bool :=
  match status, t with
  | _, T_StatusBase => true
  | BlockedStatus _, T_BlockedStatus => true
  | WaitingStatus _, T_WaitingStatus => true
  | MaintenanceStatus _, T_MaintenanceStatus => true
  | _, _ => false
  end.

Definition status_priority : list status_type :=
  [T_BlockedStatus; T_WaitingStatus; T_MaintenanceStatus; T_StatusBase].

(** The two nested loops of [_prioritize_statuses], leaving at the first
    [return]. *)
Fixpoint first_instance (types : list status_type) (statuses : list StatusBase)
  : option StatusBase :=
  match types with
  | [] => None
  | status_type :: types' =>
      match find (fun status => isinstance status status_type) statuses with
      | Some status => Some status
      | None => first_instance types' statuses
      end
  end.

Definition _prioritize_statuses (statuses : list StatusBase) : StatusBase :=
  match first_instance status_priority statuses with
  | Some status => status
  | None => ActiveStatus ""
  end.

(** [_determine_app_status], given what [get_status] of the two endpoints
    returned ([None] is not appended). *)
Definition _determine_app_status (requires_status provides_status : option StatusBase)
  : StatusBase :=
  _prioritize_statuses (omap (fun status => status) [requires_status; provides_status]).

End abstract_charm.

(** ** [workload.py]: bootstrapping the router *)

Module workload.

Definition _get_bootstrap_command
    (_connection_info : database_requires.ConnectionInformation) (password : string)
  : list string :=
  [ "--bootstrap";
    database_requires.username _connection_info +:+ ":" +:+ password +:+ "@"
    +:+ database_requires.host _connection_info +:+ ":"
    +:+ database_requires.port _connection_info;
    "--strict";
    "--conf-set-option";
    "http_server.bind_address=127.0.0.1";
    "--conf-use-gr-notifications" ].

(** What [container.run_mysql_router] can raise: [CalledProcessError], with
    the standard error of the process, or anything else. *)
Inductive run_error :=
| CalledProcessError (stderr : string)
| OtherError (description : string).

(** What leaves [_bootstrap_router]: the new [Exception], or an exception of
    the container that is not caught. *)
Inductive exn :=
| Exception_ (message : string)
| Uncaught (e : run_error).

Inductive log_level := DEBUG | ERROR.

Definition newline : string := String (Ascii.ascii_of_nat 10) EmptyString.

(** [_bootstrap_router]: the records handed to the logger, in order, and the
    outcome.  [repr] and [repr_list] are Python's [repr] on strings and on
    lists of strings, [run_mysql_router] is the container. *)
Definition _bootstrap_router (repr : string -> string)
    (repr_list : list string -> string)
    (run_mysql_router : list string -> result run_error string)
    (_connection_info : database_requires.ConnectionInformation)
  : list (log_level * string) * result exn unit :=
  let host := database_requires.host _connection_info in
  let port := database_requires.port _connection_info in
  let started :=
    (DEBUG, "Bootstrapping router self._connection_info.host=" +:+ repr host
            +:+ ", self._connection_info.port=" +:+ repr port) in
  let logged_command := _get_bootstrap_command _connection_info "***" in
  let command :=
    _get_bootstrap_command _connection_info
      (database_requires.password _connection_info) in
  match run_mysql_router command with
  | Raise (CalledProcessError stderr) =>
      ([started;
        (ERROR, "Failed to bootstrap router" +:+ newline
                +:+ "logged_command=" +:+ repr_list logged_command +:+ newline
                +:+ "stderr:" +:+ newline +:+ stderr +:+ newline)],
       Raise (Exception_ "Failed to bootstrap router"))
  | Raise e => ([started], Raise (Uncaught e))
  | Ok _ =>
      ([started;
        (DEBUG, "Bootstrapped router self._connection_info.host=" +:+ repr host
                +:+ ", self._connection_info.port=" +:+ repr port)],
       Ok tt)
  end.

End workload.

(** * Vocabulary of the properties *)

Section vocabulary.
Import database_provides.

(** None of the five grant fields is in the bag. *)
Definition has_no_key (bag : gmap string string) : bool :=
  forallb (fun key => bool_decide (bag !! key = None)) grant_keys.

(** The bag holds a complete grant or no grant field at all. *)
Definition none_or_all (bag : gmap string string) : bool :=
  has_no_key bag || has_all_keys bag.

(** A relationship whose request is granted, in the words of the design
    document: not tearing down, the [database] key is in the remote bag and
    no extra user role is requested. *)
Definition well_formed_request (r : RemoteRelation) : bool :=
  negb (breaking r)
  && bool_decide (is_Some (remote_app r !! "database"))
  && negb (truthy (remote_app r !! "extra-user-roles")).

(** The bag after the five assignments of [create_database_and_user]. *)
Definition grant_bag (old : gmap string string)
    (database username password rw ro : string) : gmap string string :=
  <["read-only-endpoints" := ro]>
    (<["endpoints" := rw]>
       (<["password" := password]>
          (<["username" := username]> (<["database" := database]> old)))).

(** A grant that this pass has written: complete, and under the derived
    username. *)
Definition granted (name : string) (st : State) (r : RemoteRelation) : Prop :=
  has_all_keys (my_app st r) = true
  /\ my_app st r !! "username" = Some (_get_username r name).

(** Body of the first loop. *)
Definition create_missing (endpoint : list RemoteRelation) (rw ro : string)
    (shell : mysql_shell.Shell) (relation : _RelationThatRequestedUser)
  : M mysql_shell.exn unit :=
  created <- _created_users endpoint ;;
  if negb (rel_in (requested_relation relation) (created_relation <$> created))
  then create_database_and_user relation rw ro shell
  else ret tt.

(** Body of the second loop. *)
Definition delete_unrequested (endpoint : list RemoteRelation)
    (shell : mysql_shell.Shell) (relation : _RelationWithCreatedUser)
  : M mysql_shell.exn unit :=
  if negb (rel_in (created_relation relation)
             (requested_relation <$> requested endpoint))
  then delete_user relation shell
  else ret tt.

(** The relation ids of the endpoint whose local bag holds a complete grant. *)
Definition complete_ids (endpoint : list RemoteRelation) (st : State) : gset Z :=
  list_to_set (id <$> filter (fun r => has_all_keys (my_app st r) = true) endpoint).

(** The relation ids of the endpoint whose request is well formed. *)
Definition well_formed_ids (endpoint : list RemoteRelation) : gset Z :=
  list_to_set (id <$> filter (fun r => well_formed_request r = true) endpoint).

(** The states that a sequence of leader events can produce from empty bags:
    each event runs [reconcile_users] or [delete_all_databags] on the
    relations of the moment, and may be cut short by a backend failure. *)
Inductive reachable : State -> Prop :=
| reachable_init : reachable {| bags := ∅; calls := [] |}
| reachable_reconcile_users st endpoint rw ro shell :
    reachable st ->
    reachable (reconcile_users endpoint rw ro shell st).1
| reachable_delete_all_databags st endpoint :
    reachable st ->
    reachable (delete_all_databags (E := mysql_shell.exn) endpoint st).1.

(** ** A small deployment, used to run the operations *)

Definition client_relation (i : Z) (app : string) (is_breaking : bool)
    (remote : gmap string string) : RemoteRelation :=
  {| id := i; _remote_app_name := app; breaking := is_breaking; remote_app := remote |}.

Definition complete_client : RemoteRelation :=
  client_relation 1 "wordpress" false {[ "database" := "blog" ]}.
Definition second_client : RemoteRelation :=
  client_relation 5 "drupal" false {[ "database" := "cms" ]}.
Definition incomplete_client : RemoteRelation :=
  client_relation 2 "mediawiki" false ∅.
Definition role_client : RemoteRelation :=
  client_relation 3 "keystone" false
    {[ "database" := "identity"; "extra-user-roles" := "admin" ]}.
Definition breaking_client : RemoteRelation :=
  client_relation 4 "nextcloud" true {[ "database" := "files" ]}.
Definition role_without_database_client : RemoteRelation :=
  client_relation 6 "grafana" false {[ "extra-user-roles" := "admin" ]}.

Definition sample_endpoint : list RemoteRelation :=
  [complete_client; incomplete_client; role_client; breaking_client; second_client].

(** A backend that always answers, and one that always fails. *)
Definition reliable_shell : mysql_shell.Shell :=
  {| mysql_shell.username := "relation-7";
     mysql_shell.create_answer := fun _ _ _ => Some "s3cret";
     mysql_shell.delete_answer := fun _ _ => true |}.
Definition failing_shell : mysql_shell.Shell :=
  {| mysql_shell.username := "relation-7";
     mysql_shell.create_answer := fun _ _ _ => None;
     mysql_shell.delete_answer := fun _ _ => false |}.

Definition empty_state : State := {| bags := ∅; calls := [] |}.

(** The state after one pass over [sample_endpoint]. *)
Definition sample_state : State :=
  (reconcile_users sample_endpoint "rw.sock" "ro.sock" reliable_shell empty_state).1.

(** ** Vocabulary of [get_status] *)

(** The relation requests an extra user role: it is not tearing down, its
    remote bag has the [database] key and a non-empty [extra-user-roles]. *)
Definition unsupported_role (r : RemoteRelation) : bool :=
  negb (breaking r)
  && bool_decide (is_Some (remote_app r !! "database"))
  && truthy (remote_app r !! "extra-user-roles").

(** The relation is incomplete: it is not tearing down and its remote bag
    lacks the [database] key. *)
Definition incomplete (r : RemoteRelation) : bool :=
  negb (breaking r) && bool_decide (remote_app r !! "database" = None).

Definition waiting_message (app : string) : string :=
  "Waiting for " +:+ app +:+ " app on database endpoint".

Definition role_message (app : string) : string :=
  app +:+ " app requested unsupported extra user role on database endpoint".

(** The call that creates the user of a requested relation. *)
Definition create_call (shell : mysql_shell.Shell) (u : _RelationThatRequestedUser)
  : Call :=
  CreateUser (_get_username (requested_relation u) (mysql_shell.username shell))
    (_database u).

(** The call that deletes the user of a relation. *)
Definition delete_call (shell : mysql_shell.Shell) (r : RemoteRelation) : Call :=
  DeleteUser (_get_username r (mysql_shell.username shell)).

End vocabulary.

(** ** Vocabulary of upstream resolution *)

Section upstream_vocabulary.
Import database_requires.

(** Number of occurrences of a character in a string. *)
Fixpoint occurrences (c : Ascii.ascii) (s : string) : nat :=
  match s with
  | EmptyString => 0
  | String c' s' => (if Ascii.eqb c' c then 1 else 0) + occurrences c s'
  end.

(** The local bag after the leader has written its own request. *)
Definition leader_request (old : gmap string string) : gmap string string :=
  <["extra-user-roles" := "mysqlrouter"]>
    (<["database" := "mysql_innodb_cluster_metadata"]> old).

(** The exception for a remote bag that lacks a key. *)
Definition upstream_waiting (relation : RemoteRelation) : exn :=
  _IncompleteDatabag
    [VStatus (WaitingStatus
       ("Waiting for " +:+ _remote_app_name relation
        +:+ " app on backend-database endpoint"))].

(** The outcome of [ConnectionInformation.__init__] for one relation that is
    not tearing down, read off its remote bag. *)
Definition expected_outcome (relation : RemoteRelation)
  : result exn ConnectionInformation :=
  match remote_app relation !! "endpoints" with
  | None => Raise (upstream_waiting relation)
  | Some e =>
      if decide (occurrences "," e = 0) then
        if decide (occurrences ":" e = 0) then Raise IndexError
        else match remote_app relation !! "username",
                   remote_app relation !! "password" with
             | Some u, Some p =>
                 Ok {| host := default "" (split ":" e !! 0);
                       port := default "" (split ":" e !! 1);
                       username := u; password := p |}
             | _, _ => Raise (upstream_waiting relation)
             end
      else Raise AssertionError
  end.

(** What the module-level handler makes of an outcome. *)
Definition handled (outcome : result exn ConnectionInformation)
  : result exn Resolution :=
  match outcome with
  | Ok info => Ok {| connection_info := Some info;
                     relation_breaking := false;
                     status := None |}
  | Raise e =>
      if isinstance e T_MissingRelation || isinstance e T_IncompleteDatabag
      then match args e with
           | v :: _ => Ok {| connection_info := None;
                             relation_breaking := isinstance e T_RelationBreaking;
                             status := Some v |}
           | [] => Raise IndexError
           end
      else Raise e
  end.

Definition upstream_relation (is_breaking : bool) (remote : gmap string string)
  : RemoteRelation :=
  {| id := 7; _remote_app_name := "mysql"; breaking := is_breaking;
     remote_app := remote |}.

Definition complete_upstream : RemoteRelation :=
  upstream_relation false
    {[ "endpoints" := "10.0.0.5:3306"; "username" := "relation-7";
       "password" := "hunter2" ]}.
Definition breaking_upstream : RemoteRelation :=
  upstream_relation true
    {[ "endpoints" := "10.0.0.5:3306"; "username" := "relation-7";
       "password" := "hunter2" ]}.
Definition silent_upstream : RemoteRelation := upstream_relation false ∅.
Definition no_password_upstream : RemoteRelation :=
  upstream_relation false
    {[ "endpoints" := "10.0.0.5:3306"; "username" := "relation-7" ]}.
Definition two_endpoints_upstream : RemoteRelation :=
  upstream_relation false {[ "endpoints" := "10.0.0.5:3306,10.0.0.6:3306" ]}.
Definition no_port_upstream : RemoteRelation :=
  upstream_relation false {[ "endpoints" := "localhost" ]}.

End upstream_vocabulary.

(** ** Vocabulary of status priority *)

Section status_vocabulary.
Import abstract_charm.

(** Position of the first entry of [status_priority] that a status is an
    instance of. *)
Definition rank (status : StatusBase) : nat :=
  match status with
  | BlockedStatus _ => 0
  | WaitingStatus _ => 1
  | MaintenanceStatus _ => 2
  | ActiveStatus _ | OtherStatus _ _ => 3
  end.

(** The best rank in a list of statuses; [3] for the empty list. *)
Definition min_rank (statuses : list StatusBase) : nat :=
  foldr (fun status m => Nat.min (rank status) m) 3 statuses.

End status_vocabulary.

(** * Properties *)

(** ** The store of local databags *)

Lemma my_app_set_bag relation bag st r :
  my_app (set_bag relation bag st) r
  = if decide (id relation = id r) then bag else my_app st r.
Proof.
  unfold my_app, set_bag; simpl. case_decide as Hid.
  - rewrite Hid. apply lookup_total_insert_eq.
  - by apply lookup_total_insert_ne.
Qed.

Lemma my_app_same_id st r r' : id r = id r' -> my_app st r = my_app st r'.
Proof. unfold my_app. by intros ->. Qed.

Lemma my_app_log c st r : my_app (mysql_shell.log c st) r = my_app st r.
Proof. reflexivity. Qed.

Lemma bind_inv {E A B} (m : M E A) (k : A -> M E B) st st' res :
  bind m k st = (st', res) ->
  (exists st1 a, m st = (st1, Ok a) /\ k a st1 = (st', res))
  \/ (exists e, m st = (st', Raise e) /\ res = Raise e).
Proof.
  unfold bind. destruct (m st) as [st1 [a|e]]; intros Heq.
  - left. eauto.
  - right. exists e. by inversion Heq.
Qed.

Lemma bind_ok {E A B} (m : M E A) (k : A -> M E B) st st1 a :
  m st = (st1, Ok a) -> bind m k st = k a st1.
Proof. unfold bind. by intros ->. Qed.

(** ** Facts about [database_provides] *)

Section provides.
Import database_provides.

Lemma has_all_keys_grant_bag old database username password rw ro :
  has_all_keys (grant_bag old database username password rw ro) = true.
Proof.
  unfold has_all_keys, grant_bag, grant_keys. simpl.
  repeat (rewrite bool_decide_eq_true_2; [simpl | by simplify_map_eq]).
  done.
Qed.

Lemma has_all_keys_empty : has_all_keys ∅ = false.
Proof. reflexivity. Qed.

Lemma none_or_all_empty : none_or_all ∅ = true.
Proof. reflexivity. Qed.

Lemma none_or_all_complete bag : has_all_keys bag = true -> none_or_all bag = true.
Proof. unfold none_or_all. intros ->. apply orb_true_r. Qed.

Lemma rel_in_spec r l :
  rel_in r l = true <-> exists r', r' ∈ l /\ id r = id r'.
Proof.
  unfold rel_in, relation_eqb. rewrite existsb_exists. split.
  - intros (r' & Hin & Heq). exists r'. split.
    + by apply list_elem_of_In.
    + by apply bool_decide_eq_true_1 in Heq.
  - intros (r' & Hin & Heq). exists r'. split.
    + by apply list_elem_of_In.
    + by apply bool_decide_eq_true_2.
Qed.

Lemma rel_in_same_id r r' l : id r = id r' -> rel_in r l = rel_in r' l.
Proof.
  intros Hid. apply eq_true_iff_eq. rewrite !rel_in_spec.
  split; intros (x & ? & ?); exists x; split; congruence.
Qed.

Lemma init_ok_iff r :
  (exists u, _RelationThatRequestedUser__init__ r = Ok u)
  <-> well_formed_request r = true.
Proof.
  unfold _RelationThatRequestedUser__init__, well_formed_request.
  destruct (breaking r).
  { split; [intros [u Hu]; discriminate | discriminate]. }
  destruct (remote_app r !! "database") as [database|] eqn:Hdb.
  - rewrite bool_decide_eq_true_2 by eauto.
    destruct (truthy _); split; try discriminate; eauto.
    intros [u Hu]; discriminate.
  - rewrite bool_decide_eq_false_2 by (intros [? ?]; discriminate).
    split; [intros [u Hu]; discriminate | discriminate].
Qed.

Lemma init_ok_relation r u :
  _RelationThatRequestedUser__init__ r = Ok u -> requested_relation u = r.
Proof.
  unfold _RelationThatRequestedUser__init__.
  repeat case_match; intros Hu; inversion Hu; done.
Qed.

Lemma elem_of_requested u endpoint :
  u ∈ requested endpoint
  <-> exists r, r ∈ endpoint /\ _RelationThatRequestedUser__init__ r = Ok u.
Proof.
  unfold requested. rewrite list_elem_of_omap. split.
  - intros (r & Hin & Hr). exists r. split; [done|].
    destruct (_RelationThatRequestedUser__init__ r); by inversion Hr.
  - intros (r & Hin & Hr). exists r. split; [done|]. by rewrite Hr.
Qed.

Lemma requested_in_endpoint u endpoint :
  u ∈ requested endpoint -> requested_relation u ∈ endpoint.
Proof.
  rewrite elem_of_requested. intros (r & Hin & Hr).
  by rewrite (init_ok_relation _ _ Hr).
Qed.

(** Membership in [requested_users], by relation id. *)
Lemma rel_in_requested r endpoint :
  rel_in r (requested_relation <$> requested endpoint) = true
  <-> exists r', r' ∈ endpoint /\ id r = id r' /\ well_formed_request r' = true.
Proof.
  rewrite rel_in_spec. split.
  - intros (r' & Hin & Hid). apply list_elem_of_fmap in Hin as (u & -> & Hu).
    exists (requested_relation u). split_and!; [by apply requested_in_endpoint|done|].
    apply elem_of_requested in Hu as (r0 & _ & Hr0).
    rewrite (init_ok_relation _ _ Hr0). apply init_ok_iff. eauto.
  - intros (r' & Hin & Hid & Hwf). apply init_ok_iff in Hwf as [u Hu].
    exists r'. split; [|done]. apply list_elem_of_fmap. exists u. split.
    + by rewrite (init_ok_relation _ _ Hu).
    + apply elem_of_requested. eauto.
Qed.

(** Membership in [_created_users()], by relation id. *)
Lemma rel_in_created st r endpoint :
  rel_in r (created_relation <$> omap (_RelationWithCreatedUser__init__ st) endpoint)
  = rel_in r endpoint && has_all_keys (my_app st r).
Proof.
  apply eq_true_iff_eq. rewrite andb_true_iff, !rel_in_spec. split.
  - intros (r' & Hin & Hid). apply list_elem_of_fmap in Hin as (c & -> & Hc).
    apply list_elem_of_omap in Hc as (r0 & Hin0 & Hr0).
    unfold _RelationWithCreatedUser__init__ in Hr0.
    destruct (has_all_keys (my_app st r0)) eqn:Hkeys; [|discriminate].
    inversion Hr0; subst c; simpl in *. split; [eauto|].
    by rewrite (my_app_same_id st r r0).
  - intros ((r' & Hin & Hid) & Hkeys). exists r'. split; [|done].
    apply list_elem_of_fmap. exists {| created_relation := r' |}. split; [done|].
    apply list_elem_of_omap. exists r'. split; [done|].
    unfold _RelationWithCreatedUser__init__.
    by rewrite <- (my_app_same_id st r r'), Hkeys.
Qed.

Lemma elem_of_created st c (endpoint : list RemoteRelation) :
  c ∈ omap (_RelationWithCreatedUser__init__ st) endpoint
  <-> created_relation c ∈ endpoint /\ has_all_keys (my_app st (created_relation c)) = true.
Proof.
  rewrite list_elem_of_omap. unfold _RelationWithCreatedUser__init__. split.
  - intros (r & Hin & Hr). destruct (has_all_keys (my_app st r)) eqn:Hk; [|discriminate].
    inversion Hr; subst c. done.
  - intros [Hin Hk]. exists (created_relation c). split; [done|].
    rewrite Hk. by destruct c.
Qed.

End provides.

(** ** Creating and deleting one grant *)

Section grants.
Import database_provides.

(** The five assignments of [create_database_and_user] amount to one update
    of the relation's bag, made after the backend call has succeeded; when
    the backend call fails no bag is written. *)
Lemma create_database_and_user_eq u rw ro shell st :
  let r := requested_relation u in
  let name := _get_username r (mysql_shell.username shell) in
  let st1 := mysql_shell.log (CreateUser name (_database u)) st in
  create_database_and_user u rw ro shell st
  = match mysql_shell.create_answer shell (calls st) name (_database u) with
    | Some password =>
        (set_bag r (grant_bag (my_app st r) (_database u) name password rw ro) st1,
         Ok tt)
    | None => (st1, Raise mysql_shell.AdminOperationFailed)
    end.
Proof.
  intros r name st1.
  unfold create_database_and_user, bind, mysql_shell.create_application_database_and_user.
  fold r. fold name.
  destruct (mysql_shell.create_answer shell (calls st) name (_database u)) as [password|];
    [|done].
  unfold setitem, set_bag, my_app, grant_bag; simpl.
  rewrite !lookup_total_insert_eq, !insert_insert_eq. done.
Qed.

Lemma delete_user_eq c shell st :
  let r := created_relation c in
  delete_user c shell st
  = mysql_shell.delete_user shell (_get_username r (mysql_shell.username shell))
      (set_bag r ∅ st).
Proof. reflexivity. Qed.

Lemma granted_same_bag name st st' r :
  my_app st' r = my_app st r -> granted name st r -> granted name st' r.
Proof. unfold granted. by intros ->. Qed.

Lemma create_database_and_user_effect u rw ro shell st st' res :
  create_database_and_user u rw ro shell st = (st', res) ->
  (res = Ok tt
   /\ forall r, if decide (id (requested_relation u) = id r)
                then granted (mysql_shell.username shell) st' r
                else my_app st' r = my_app st r)
  \/ (res = Raise mysql_shell.AdminOperationFailed /\ bags st' = bags st).
Proof.
  rewrite create_database_and_user_eq.
  destruct (mysql_shell.create_answer _ _ _ _) as [password|];
    intros Heq; inversion Heq; subst; [left|right]; split; try done.
  intros r. case_decide as Hid.
  - unfold granted. rewrite my_app_set_bag, decide_True by done.
    split; [apply has_all_keys_grant_bag|].
    unfold grant_bag, _get_username. rewrite Hid. by simplify_map_eq.
  - by rewrite my_app_set_bag, decide_False.
Qed.

Lemma delete_user_effect c shell st st' res :
  delete_user c shell st = (st', res) ->
  forall r, my_app st' r
            = if decide (id (created_relation c) = id r) then ∅ else my_app st r.
Proof.
  rewrite delete_user_eq. unfold mysql_shell.delete_user.
  destruct (mysql_shell.delete_answer _ _ _); intros Heq; inversion Heq; subst;
    intros r; by rewrite my_app_log, my_app_set_bag.
Qed.

End grants.

(** ** The two loops of [reconcile_users] *)

Section reconcile.
Import database_provides.
Variables (endpoint : list RemoteRelation) (rw ro : string).
Variable shell : mysql_shell.Shell.

Lemma reconcile_users_eq :
  reconcile_users endpoint rw ro shell
  = (for_ (requested endpoint) (create_missing endpoint rw ro shell) ;;;
     created <- _created_users endpoint ;;
     for_ created (delete_unrequested endpoint shell)).
Proof. reflexivity. Qed.

Lemma create_missing_eq u st :
  rel_in (requested_relation u) endpoint = true ->
  (create_missing endpoint rw ro shell) u st
  = if has_all_keys (my_app st (requested_relation u)) then (st, Ok tt)
    else create_database_and_user u rw ro shell st.
Proof.
  intros Hin. unfold create_missing, bind, _created_users.
  rewrite rel_in_created, Hin. simpl.
  by destruct (has_all_keys _).
Qed.

Lemma create_missing_effect u st st' res :
  rel_in (requested_relation u) endpoint = true ->
  (create_missing endpoint rw ro shell) u st = (st', res) ->
  (forall r, my_app st' r = my_app st r
             \/ (id (requested_relation u) = id r
                 /\ has_all_keys (my_app st r) = false
                 /\ granted (mysql_shell.username shell) st' r))
  /\ (res = Ok tt -> has_all_keys (my_app st' (requested_relation u)) = true).
Proof.
  intros Hin. rewrite create_missing_eq by done.
  destruct (has_all_keys (my_app st (requested_relation u))) eqn:Hkeys.
  - intros Heq; inversion Heq; subst. split; [by left | done].
  - intros Heq. apply create_database_and_user_effect in Heq as [[-> Hst]|[-> Hst]].
    + split.
      * intros r. specialize (Hst r). case_decide as Hid; [right | by left].
        split_and!; [done| |done].
        by rewrite <- (my_app_same_id st _ _ Hid).
      * intros _. specialize (Hst (requested_relation u)).
        rewrite decide_True in Hst by done. apply Hst.
    + split; [|discriminate]. intros r. left. unfold my_app. by rewrite Hst.
Qed.

Lemma create_loop_effect l :
  (forall u, u ∈ l -> rel_in (requested_relation u) endpoint = true) ->
  forall st st' res,
    for_ l (create_missing endpoint rw ro shell) st = (st', res) ->
    forall r, my_app st' r = my_app st r
              \/ (rel_in r (requested_relation <$> l) = true
                  /\ has_all_keys (my_app st r) = false
                  /\ granted (mysql_shell.username shell) st' r).
Proof.
  induction l as [|u l IH]; intros Hl st st' res Hrun r.
  { inversion Hrun; subst. by left. }
  simpl in Hrun. apply bind_inv in Hrun as [(st1 & [] & Hu & Hrest)|(e & Hu & ->)].
  - apply create_missing_effect in Hu as [Hu _]; [|apply Hl; left].
    assert (Hl' : forall u', u' ∈ l -> rel_in (requested_relation u') endpoint = true)
      by (intros; apply Hl; by right).
    destruct (Hu r) as [Hr1|(Hid & Hno & Hgr)],
             (IH Hl' _ _ _ Hrest r) as [Hr2|(Hin & Hno2 & Hgr2)].
    + left. congruence.
    + right. split_and!; [|by rewrite <- Hr1|done].
      apply rel_in_spec in Hin as (r' & Hin & Hid).
      apply rel_in_spec. exists r'. split; [by right | done].
    + right. split_and!; [|done|by apply (granted_same_bag _ st1)].
      apply rel_in_spec. exists (requested_relation u). split; [by left | done].
    + destruct Hgr as [Hgr _]. congruence.
  - apply create_missing_effect in Hu as [Hu _]; [|apply Hl; left].
    destruct (Hu r) as [Hr1|(Hid & Hno & Hgr)]; [by left | right].
    split_and!; [|done|done].
    apply rel_in_spec. exists (requested_relation u). split; [by left | done].
Qed.

Lemma create_loop_ok l :
  (forall u, u ∈ l -> rel_in (requested_relation u) endpoint = true) ->
  forall st st',
    for_ l (create_missing endpoint rw ro shell) st = (st', Ok tt) ->
    forall r, rel_in r (requested_relation <$> l) = true ->
              has_all_keys (my_app st' r) = true.
Proof.
  induction l as [|u l IH]; intros Hl st st' Hrun r Hr.
  { discriminate. }
  simpl in Hrun. apply bind_inv in Hrun as [(st1 & [] & Hu & Hrest)|(e & _ & ?)];
    [|discriminate].
  apply rel_in_spec in Hr as (r' & Hin & Hid).
  rewrite fmap_cons in Hin. apply elem_of_cons in Hin as [->|Hin].
  - apply create_missing_effect in Hu as [_ Hu]; [|apply Hl; left].
    specialize (Hu eq_refl). rewrite <- (my_app_same_id st1 _ _ Hid) in Hu.
    assert (Hl' : forall u', u' ∈ l -> rel_in (requested_relation u') endpoint = true)
      by (intros; apply Hl; by right).
    destruct (create_loop_effect _ Hl' _ _ _ Hrest r) as [->|(_ & _ & [Hgr _])]; done.
  - eapply IH; [intros; apply Hl; by right | done |].
    apply rel_in_spec. eauto.
Qed.

Lemma create_loop_noop l st :
  (forall u, u ∈ l -> rel_in (requested_relation u) endpoint = true) ->
  (forall u, u ∈ l -> has_all_keys (my_app st (requested_relation u)) = true) ->
  for_ l (create_missing endpoint rw ro shell) st = (st, Ok tt).
Proof.
  induction l as [|u l IH]; intros Hl Hkeys; [done|].
  simpl. erewrite bind_ok.
  - apply IH; intros; [apply Hl | apply Hkeys]; by right.
  - rewrite create_missing_eq by (apply Hl; left).
    rewrite Hkeys by left. done.
Qed.

Lemma delete_unrequested_effect c st st' res :
  (delete_unrequested endpoint shell) c st = (st', res) ->
  forall r, my_app st' r
            = if decide (id (created_relation c) = id r)
              then (if rel_in r (requested_relation <$> requested endpoint)
                    then my_app st r else ∅)
              else my_app st r.
Proof.
  unfold delete_unrequested. intros Hrun r.
  destruct (rel_in (created_relation c) _) eqn:Hreq; simpl in Hrun.
  - inversion Hrun; subst. case_decide as Hid; [|done].
    by rewrite <- (rel_in_same_id _ _ _ Hid), Hreq.
  - rewrite (delete_user_effect _ _ _ _ _ Hrun). case_decide as Hid; [|done].
    by rewrite <- (rel_in_same_id _ _ _ Hid), Hreq.
Qed.

Lemma delete_loop_effect l :
  forall st st' res,
    for_ l (delete_unrequested endpoint shell) st = (st', res) ->
    forall r, my_app st' r = my_app st r
              \/ (my_app st' r = ∅
                  /\ rel_in r (created_relation <$> l) = true
                  /\ rel_in r (requested_relation <$> requested endpoint) = false).
Proof.
  induction l as [|c l IH]; intros st st' res Hrun r.
  { inversion Hrun; subst. by left. }
  assert (Hhead : forall st1 res1, (delete_unrequested endpoint shell) c st = (st1, res1) ->
            my_app st1 r = my_app st r
            \/ (my_app st1 r = ∅
                /\ rel_in r (created_relation <$> c :: l) = true
                /\ rel_in r (requested_relation <$> requested endpoint) = false)).
  { intros st1 res1 Hc. rewrite (delete_unrequested_effect _ _ _ _ Hc r).
    case_decide as Hid; [|by left].
    destruct (rel_in r _) eqn:Hreq; [by left | right].
    split_and!; [done| |done]. apply rel_in_spec.
    exists (created_relation c). split; [by left | done]. }
  simpl in Hrun. apply bind_inv in Hrun as [(st1 & [] & Hc & Hrest)|(e & Hc & ->)];
    [|by eapply Hhead].
  destruct (IH _ _ _ Hrest r) as [Hr|(Hr & Hin & Hreq)].
  - rewrite Hr. by eapply Hhead.
  - right. split_and!; [done| |done].
    apply rel_in_spec in Hin as (r' & Hin & Hid). apply rel_in_spec.
    exists r'. split; [by right | done].
Qed.

Lemma delete_loop_ok l :
  forall st st',
    for_ l (delete_unrequested endpoint shell) st = (st', Ok tt) ->
    forall r, rel_in r (created_relation <$> l) = true ->
              rel_in r (requested_relation <$> requested endpoint) = false ->
              my_app st' r = ∅.
Proof.
  induction l as [|c l IH]; intros st st' Hrun r Hin Hreq; [discriminate|].
  simpl in Hrun. apply bind_inv in Hrun as [(st1 & [] & Hc & Hrest)|(e & _ & ?)];
    [|discriminate].
  apply rel_in_spec in Hin as (r' & Hin & Hid).
  rewrite fmap_cons in Hin. apply elem_of_cons in Hin as [->|Hin].
  - pose proof (delete_unrequested_effect _ _ _ _ Hc r) as H1.
    rewrite decide_True, Hreq in H1 by done.
    destruct (delete_loop_effect _ _ _ _ Hrest r) as [Hr|(Hr & _)]; congruence.
  - eapply IH; [done| |done]. apply rel_in_spec. eauto.
Qed.

Lemma delete_loop_noop l st :
  (forall c, c ∈ l ->
     rel_in (created_relation c) (requested_relation <$> requested endpoint) = true) ->
  for_ l (delete_unrequested endpoint shell) st = (st, Ok tt).
Proof.
  induction l as [|c l IH]; intros Hl; [done|].
  simpl. erewrite bind_ok.
  - apply IH. intros; apply Hl; by right.
  - unfold delete_unrequested. rewrite Hl by left. done.
Qed.

Lemma reconcile_users_inv st st' res :
  reconcile_users endpoint rw ro shell st = (st', res) ->
  (exists st1,
      for_ (requested endpoint) (create_missing endpoint rw ro shell) st = (st1, Ok tt)
      /\ for_ (omap (_RelationWithCreatedUser__init__ st1) endpoint)
           (delete_unrequested endpoint shell) st1 = (st', res))
  \/ (exists e, for_ (requested endpoint) (create_missing endpoint rw ro shell) st
                = (st', Raise e) /\ res = Raise e).
Proof.
  rewrite reconcile_users_eq. intros Hrun.
  apply bind_inv in Hrun as [(st1 & [] & H1 & H2)|(e & H1 & ->)]; [left|right; eauto].
  exists st1. split; [done|].
  apply bind_inv in H2 as [(st2 & created & Hc & H2)|(e & Hc & _)];
    unfold _created_users in Hc; inversion Hc; by subst.
Qed.

Lemma requested_rel_in u :
  u ∈ requested endpoint -> rel_in (requested_relation u) endpoint = true.
Proof.
  intros Hu. apply rel_in_spec. exists (requested_relation u).
  split; [by apply requested_in_endpoint | done].
Qed.

(** What one pass does to each bag, whatever its outcome: the bag is kept, or
    a fresh grant is written into a bag that had none, or the bag of an
    unrequested relation is emptied. *)
Lemma reconcile_users_effect st st' res r :
  reconcile_users endpoint rw ro shell st = (st', res) ->
  my_app st' r = my_app st r
  \/ (has_all_keys (my_app st r) = false /\ granted (mysql_shell.username shell) st' r)
  \/ my_app st' r = ∅.
Proof.
  intros [(st1 & H1 & H2)|(e & H1 & _)]%reconcile_users_inv.
  - destruct (delete_loop_effect _ _ _ _ H2 r) as [Hr2|(Hr2 & _)]; [|by right; right].
    destruct (create_loop_effect _ requested_rel_in _ _ _ H1 r) as [Hr1|(_ & Hno & Hgr)].
    + left. congruence.
    + right; left. split; [done|]. by apply (granted_same_bag _ st1).
  - destruct (create_loop_effect _ requested_rel_in _ _ _ H1 r) as [Hr1|(_ & Hno & Hgr)];
      [by left | by right; left].
Qed.

(** After a pass that ran to its end, a relation of the endpoint holds a
    complete grant exactly when it is among the requested ones. *)
Lemma reconcile_users_complete st st' r :
  reconcile_users endpoint rw ro shell st = (st', Ok tt) ->
  rel_in r endpoint = true ->
  has_all_keys (my_app st' r)
  = rel_in r (requested_relation <$> requested endpoint).
Proof.
  intros [(st1 & H1 & H2)|(e & _ & ?)]%reconcile_users_inv Hin; [|discriminate].
  destruct (rel_in r (requested_relation <$> requested endpoint)) eqn:Hreq.
  - pose proof (create_loop_ok _ requested_rel_in _ _ H1 r Hreq) as Hk.
    destruct (delete_loop_effect _ _ _ _ H2 r) as [->|(_ & _ & ?)]; congruence.
  - destruct (has_all_keys (my_app st1 r)) eqn:Hk.
    + rewrite (delete_loop_ok _ _ _ H2 r); [done| |done].
      by rewrite rel_in_created, Hin, Hk.
    + destruct (delete_loop_effect _ _ _ _ H2 r) as [->|(-> & _)]; done.
Qed.

(** A pass from a state in which the complete grants are those of the
    requested relations changes nothing and calls nothing. *)
Lemma reconcile_users_noop st :
  (forall r, r ∈ endpoint ->
     has_all_keys (my_app st r) = rel_in r (requested_relation <$> requested endpoint)) ->
  reconcile_users endpoint rw ro shell st = (st, Ok tt).
Proof.
  intros Hst. rewrite reconcile_users_eq.
  erewrite bind_ok; [|apply create_loop_noop; [apply requested_rel_in|]].
  - unfold bind, _created_users. apply delete_loop_noop.
    intros c [Hin Hk]%elem_of_created. by rewrite <- Hst.
  - intros u Hu. rewrite Hst by by apply requested_in_endpoint.
    apply rel_in_spec. exists (requested_relation u). split; [|done].
    apply list_elem_of_fmap. eauto.
Qed.

End reconcile.

(** ** Reconciliation *)

Section reconciliation_properties.
Import database_provides.

Lemma for_ok {E A} (body : A -> M E unit) (l : list A) :
  (forall x st, exists st', body x st = (st', Ok tt)) ->
  forall st, exists st', for_ l body st = (st', Ok tt).
Proof.
  intros Hbody. induction l as [|x l IH]; intros st; [by exists st|].
  destruct (Hbody x st) as [st1 Hx], (IH st1) as [st' Hl].
  exists st'. simpl. by erewrite bind_ok.
Qed.

(** With a backend that answers every call, a pass runs to its end. *)
Lemma reconcile_users_completes endpoint rw ro shell st :
  (forall log name database, is_Some (mysql_shell.create_answer shell log name database)) ->
  (forall log name, mysql_shell.delete_answer shell log name = true) ->
  exists st', reconcile_users endpoint rw ro shell st = (st', Ok tt).
Proof.
  intros Hcreate Hdelete. rewrite reconcile_users_eq.
  destruct (for_ok (create_missing endpoint rw ro shell) (requested endpoint)) with st
    as [st1 H1].
  { intros u st0. unfold create_missing, bind, _created_users.
    destruct (negb _); [|by eexists].
    rewrite create_database_and_user_eq.
    destruct (Hcreate (calls st0) (_get_username (requested_relation u)
                                     (mysql_shell.username shell)) (_database u))
      as [password ->]. by eexists. }
  erewrite bind_ok by done. unfold bind, _created_users.
  apply for_ok. intros c st0. unfold delete_unrequested.
  destruct (negb _); [|by eexists].
  rewrite delete_user_eq. unfold mysql_shell.delete_user. rewrite Hdelete. by eexists.
Qed.

(** C1 (fixpoint correctness): after [reconcile_users] has run to its end,
    the relation ids whose local bag holds a complete grant (all of
    [database], [username], [password], [endpoints], [read-only-endpoints])
    are exactly the ids of the relations that are not tearing down, have the
    [database] key in the remote bag and request no extra user role. *)
Theorem reconcile_users_fixpoint endpoint rw ro shell st st' :
  reconcile_users endpoint rw ro shell st = (st', Ok tt) ->
  complete_ids endpoint st' = well_formed_ids endpoint.
Proof.
  intros Hrun. apply set_eq. intros i.
  unfold complete_ids, well_formed_ids.
  rewrite !elem_of_list_to_set, !list_elem_of_fmap. split.
  - intros (r & -> & [Hk Hin]%list_elem_of_filter).
    rewrite (reconcile_users_complete _ _ _ _ _ _ _ Hrun) in Hk.
    + apply rel_in_requested in Hk as (r' & Hin' & Hid & Hwf).
      exists r'. split; [done|]. by apply list_elem_of_filter.
    + apply rel_in_spec. eauto.
  - intros (r & -> & [Hwf Hin]%list_elem_of_filter).
    exists r. split; [done|]. apply list_elem_of_filter. split; [|done].
    rewrite (reconcile_users_complete _ _ _ _ _ _ _ Hrun).
    + apply rel_in_requested. eauto.
    + apply rel_in_spec. eauto.
Qed.

Lemma reconcile_users_fixpoint_witness :
  complete_ids sample_endpoint sample_state = well_formed_ids sample_endpoint
  /\ well_formed_ids sample_endpoint = {[ 1%Z; 5%Z ]}.
Proof.
  split.
  - apply (reconcile_users_fixpoint
             sample_endpoint "rw.sock" "ro.sock" reliable_shell empty_state).
    vm_compute. reflexivity.
  - vm_compute. reflexivity.
Defined.

(** C2 (idempotence): when [reconcile_users] has run to its end, running it
    again on the same relations leaves every local bag as it is and issues
    no backend call, neither [create_database_and_user] nor [delete_user]. *)
Theorem reconcile_users_idempotent endpoint rw ro shell st st1 :
  reconcile_users endpoint rw ro shell st = (st1, Ok tt) ->
  exists st2,
    reconcile_users endpoint rw ro shell st1 = (st2, Ok tt)
    /\ bags st2 = bags st1
    /\ calls st2 = calls st1.
Proof.
  intros Hrun. exists st1. split; [|done].
  apply reconcile_users_noop. intros r Hin.
  apply (reconcile_users_complete _ _ _ _ _ _ _ Hrun).
  apply rel_in_spec. eauto.
Qed.

Lemma reconcile_users_idempotent_witness :
  exists st2,
    reconcile_users sample_endpoint "rw.sock" "ro.sock" reliable_shell sample_state
    = (st2, Ok tt)
    /\ bags st2 = bags sample_state
    /\ calls st2 = calls sample_state.
Proof.
  apply (reconcile_users_idempotent
           sample_endpoint "rw.sock" "ro.sock" reliable_shell empty_state).
  vm_compute. reflexivity.
Defined.

(** ** Usernames *)

Lemma _get_username_inj name r1 r2 :
  _get_username r1 name = _get_username r2 name -> id r1 = id r2.
Proof.
  unfold _get_username. intros Heq.
  apply (inj (String.app name)) in Heq.
  apply (inj (String.app "-")) in Heq.
  by apply (inj pretty) in Heq.
Qed.

(** C4 (username derivation): a grant that [reconcile_users] writes carries
    the upstream username, a hyphen and the relation id; and when the grants
    already there carry such a name, the grants of two different relations
    never share a username after the pass. *)
Theorem reconcile_users_username endpoint rw ro shell st st' res :
  reconcile_users endpoint rw ro shell st = (st', res) ->
  (forall r,
      has_all_keys (my_app st r) = false ->
      has_all_keys (my_app st' r) = true ->
      my_app st' r !! "username"
      = Some (mysql_shell.username shell +:+ "-" +:+ pretty (id r)))
  /\ ((forall r, has_all_keys (my_app st r) = true ->
          my_app st r !! "username"
          = Some (_get_username r (mysql_shell.username shell))) ->
      forall r1 r2,
        id r1 <> id r2 ->
        has_all_keys (my_app st' r1) = true ->
        has_all_keys (my_app st' r2) = true ->
        my_app st' r1 !! "username" <> my_app st' r2 !! "username").
Proof.
  intros Hrun.
  assert (Hnew : forall r, has_all_keys (my_app st r) = false ->
            has_all_keys (my_app st' r) = true ->
            my_app st' r !! "username"
            = Some (_get_username r (mysql_shell.username shell))).
  { intros r Hno Hk.
    destruct (reconcile_users_effect _ _ _ _ _ _ _ r Hrun) as [Heq|[[_ [_ Hu]]|Heq]];
      [congruence|done|].
    rewrite Heq in Hk. discriminate. }
  split; [exact Hnew|].
  intros Hold r1 r2 Hid Hk1 Hk2.
  assert (Hall : forall r, has_all_keys (my_app st' r) = true ->
            my_app st' r !! "username"
            = Some (_get_username r (mysql_shell.username shell))).
  { intros r Hk. destruct (has_all_keys (my_app st r)) eqn:Hk0; [|by apply Hnew].
    destruct (reconcile_users_effect _ _ _ _ _ _ _ r Hrun) as [Heq|[[? _]|Heq]];
      [|congruence|].
    - rewrite Heq. by apply Hold.
    - rewrite Heq in Hk. discriminate. }
  rewrite (Hall r1 Hk1), (Hall r2 Hk2). intros [= Heq].
  by apply _get_username_inj in Heq.
Qed.

Lemma reconcile_users_username_witness :
  my_app sample_state complete_client !! "username" = Some "relation-7-1"
  /\ my_app sample_state complete_client !! "username"
     <> my_app sample_state second_client !! "username".
Proof.
  destruct (reconcile_users_username
              sample_endpoint "rw.sock" "ro.sock" reliable_shell
              empty_state sample_state (Ok tt)) as [Hnew Hdistinct].
  { vm_compute. reflexivity. }
  split.
  - apply (Hnew complete_client); vm_compute; reflexivity.
  - apply Hdistinct.
    + intros r Hk. vm_compute in Hk. discriminate.
    + vm_compute. discriminate.
    + vm_compute. reflexivity.
    + vm_compute. reflexivity.
Defined.

(** ** Deleting grants *)

(** C5 (safe deletion ordering): [delete_user] empties the local bag and only
    then calls the backend, so the backend call starts from a state whose bag
    is empty already; whatever the call answers, and in particular when it
    fails, the bag is empty afterwards. *)
Theorem delete_user_clears_bag_first c shell st :
  let r := created_relation c in
  let name := _get_username r (mysql_shell.username shell) in
  let out := delete_user c shell st in
  out = mysql_shell.delete_user shell name (set_bag r ∅ st)
  /\ my_app (set_bag r ∅ st) r = ∅
  /\ my_app out.1 r = ∅
  /\ calls out.1 = (calls st ++ [DeleteUser name])%list
  /\ out.2 = (if mysql_shell.delete_answer shell (calls st) name
             then Ok tt else Raise mysql_shell.AdminOperationFailed).
Proof.
  intros r name out. subst out. rewrite delete_user_eq. fold r. fold name.
  assert (Hempty : my_app (set_bag r ∅ st) r = ∅)
    by by rewrite my_app_set_bag, decide_True.
  split_and!; [done|done|..]; unfold mysql_shell.delete_user; simpl;
    destruct (mysql_shell.delete_answer shell (calls st) name); simpl; try done.
Qed.

Lemma delete_all_loop (l : list _RelationWithCreatedUser) :
  forall st, exists st',
    for_ l (delete_databag (E := mysql_shell.exn)) st = (st', Ok tt)
    /\ calls st' = calls st
    /\ forall r, my_app st' r
                 = if rel_in r (created_relation <$> l) then ∅ else my_app st r.
Proof.
  induction l as [|c l IH]; intros st.
  { exists st. by split_and!. }
  destruct (IH (set_bag (created_relation c) ∅ st)) as (st' & Hrun & Hcalls & Hbags).
  exists st'. split_and!; [done|done|].
  intros r. rewrite Hbags, my_app_set_bag.
  rewrite fmap_cons. unfold rel_in at 2. simpl. fold (rel_in r (created_relation <$> l)).
  unfold relation_eqb. destruct (rel_in r (created_relation <$> l)).
  - by rewrite orb_true_r.
  - rewrite orb_false_r. case_decide as Hid.
    + by rewrite bool_decide_eq_true_2.
    + by rewrite bool_decide_eq_false_2.
Qed.

Lemma delete_all_databags_effect endpoint st :
  exists st',
    delete_all_databags (E := mysql_shell.exn) endpoint st = (st', Ok tt)
    /\ calls st' = calls st
    /\ forall r, my_app st' r
                 = if rel_in r endpoint && has_all_keys (my_app st r)
                   then ∅ else my_app st r.
Proof.
  unfold delete_all_databags, bind, _created_users.
  destruct (delete_all_loop (omap (_RelationWithCreatedUser__init__ st) endpoint) st)
    as (st' & Hrun & Hcalls & Hbags).
  exists st'. split_and!; [done|done|].
  intros r. by rewrite Hbags, rel_in_created.
Qed.

(** C6 (upstream-breaking path): [delete_all_databags] empties the local bag
    of every relation of the endpoint that holds a complete grant, leaves the
    other bags as they are and issues no backend call; it is what the leader
    runs when the upstream relation is breaking. *)
Theorem delete_all_databags_no_backend_call endpoint st r :
  r ∈ endpoint ->
  let out := delete_all_databags (E := mysql_shell.exn) endpoint st in
  out.2 = Ok tt
  /\ calls out.1 = calls st
  /\ my_app out.1 r = (if has_all_keys (my_app st r) then ∅ else my_app st r)
  /\ forall authenticated container_ready rw ro shell,
      main.reconcile true true authenticated container_ready endpoint rw ro shell st
      = out.
Proof.
  intros Hin out. subst out.
  destruct (delete_all_databags_effect endpoint st) as (st' & Hrun & Hcalls & Hbags).
  rewrite Hrun. simpl. split_and!; [done|done| |done].
  rewrite Hbags. replace (rel_in r endpoint) with true; [done|].
  symmetry. apply rel_in_spec. eauto.
Qed.

Lemma delete_all_databags_no_backend_call_witness :
  let out := delete_all_databags (E := mysql_shell.exn) sample_endpoint sample_state in
  out.2 = Ok tt
  /\ calls out.1 = calls sample_state
  /\ my_app out.1 complete_client = ∅.
Proof.
  destruct (delete_all_databags_no_backend_call sample_endpoint sample_state
              complete_client) as (Hok & Hcalls & Hbag & _).
  { vm_compute. left. }
  split_and!; [exact Hok | exact Hcalls |].
  rewrite Hbag. vm_compute. reflexivity.
Defined.

(** ** No partial grant *)

(** C9 (no partial grant): in every state that the leader's operations can
    reach from empty bags, whether they ran to their end or were cut short by
    a backend failure, a local bag holds either none of the five grant fields
    or all of them; and [create_database_and_user] is all or nothing for its
    caller: it returns with the five fields written, or raises with every bag
    as it was. *)
Theorem local_bag_never_partial st :
  reachable st ->
  (forall r, none_or_all (my_app st r) = true)
  /\ forall u rw ro shell,
      let out := create_database_and_user u rw ro shell st in
      (out.2 = Ok tt /\ has_all_keys (my_app out.1 (requested_relation u)) = true)
      \/ (out.2 = Raise mysql_shell.AdminOperationFailed /\ bags out.1 = bags st).
Proof.
  intros Hreach. split.
  - induction Hreach as [|st endpoint rw ro shell _ IH|st endpoint _ IH]; intros r.
    + unfold my_app. simpl. by rewrite lookup_total_empty.
    + destruct (reconcile_users endpoint rw ro shell st) as [st' res] eqn:Hrun.
      simpl. destruct (reconcile_users_effect _ _ _ _ _ _ _ r Hrun) as [->|[[_ [Hk _]]| ->]];
        [apply IH | by apply none_or_all_complete | done].
    + destruct (delete_all_databags_effect endpoint st) as (st' & -> & _ & Hbags).
      simpl. rewrite Hbags. destruct (_ && _); [done | apply IH].
  - intros u rw ro shell out.
    destruct out as [st' res] eqn:Hout. simpl.
    destruct (create_database_and_user_effect _ _ _ _ _ _ _ Hout) as [[-> Hst]|[-> Hst]];
      [left | by right].
    split; [done|]. specialize (Hst (requested_relation u)).
    rewrite decide_True in Hst by done. apply Hst.
Qed.

Lemma local_bag_never_partial_witness :
  none_or_all (my_app sample_state complete_client) = true
  /\ none_or_all (my_app sample_state role_client) = true.
Proof.
  destruct (local_bag_never_partial sample_state) as [Hbags _].
  { apply reachable_reconcile_users, reachable_init. }
  split; apply Hbags.
Defined.

End reconciliation_properties.

(** ** Status of the downstream endpoint *)

Section status_properties.
Import database_provides.

(** What the constructor does, by the kind of the relation. *)
Lemma init_cases r :
  (breaking r = true /\ unsupported_role r = false /\ incomplete r = false
   /\ _RelationThatRequestedUser__init__ r = Raise (_RelationBreaking []))
  \/ (incomplete r = true /\ unsupported_role r = false
      /\ _RelationThatRequestedUser__init__ r
         = Raise (_IncompleteDatabag
                    [VStatus (WaitingStatus (waiting_message (_remote_app_name r)))]))
  \/ (unsupported_role r = true /\ incomplete r = false
      /\ _RelationThatRequestedUser__init__ r
         = Raise (_UnsupportedExtraUserRole [VStr (role_message (_remote_app_name r))]))
  \/ (unsupported_role r = false /\ incomplete r = false
      /\ exists u, _RelationThatRequestedUser__init__ r = Ok u).
Proof.
  unfold _RelationThatRequestedUser__init__, unsupported_role, incomplete.
  destruct (breaking r); [left; by split_and!|]. right.
  destruct (remote_app r !! "database") as [database|] eqn:Hdb.
  - right.
    rewrite (bool_decide_eq_true_2 (is_Some (Some database))) by eauto.
    rewrite (bool_decide_eq_false_2 (Some database = None)) by done.
    destruct (truthy _); [left | right]; split_and!; eauto.
  - left.
    rewrite (bool_decide_eq_false_2 (is_Some None)) by (intros [? ?]; discriminate).
    rewrite (bool_decide_eq_true_2 (None = None)) by done.
    by split_and!.
Qed.

Lemma find_collected_role endpoint :
  find (fun e => isinstance e T_UnsupportedExtraUserRole) (collected endpoint)
  = (fun r => _UnsupportedExtraUserRole [VStr (role_message (_remote_app_name r))])
      <$> find unsupported_role endpoint.
Proof.
  induction endpoint as [|r endpoint IH]; [done|].
  unfold collected in *. simpl.
  destruct (init_cases r) as [(_ & -> & _ & ->)|[(_ & -> & ->)|[(-> & _ & ->)|(-> & _ & u & ->)]]];
    simpl; done.
Qed.

Lemma find_collected_incomplete endpoint :
  find (fun e => isinstance e T_IncompleteDatabag) (collected endpoint)
  = (fun r => _IncompleteDatabag
                [VStatus (WaitingStatus (waiting_message (_remote_app_name r)))])
      <$> find incomplete endpoint.
Proof.
  induction endpoint as [|r endpoint IH]; [done|].
  unfold collected in *. simpl.
  destruct (init_cases r) as [(_ & _ & -> & ->)|[(-> & _ & ->)|[(_ & -> & ->)|(_ & -> & u & ->)]]];
    simpl; done.
Qed.

Lemma get_status_role endpoint r :
  find unsupported_role endpoint = Some r ->
  get_status endpoint = Ok (Some (VStr (role_message (_remote_app_name r)))).
Proof.
  intros Hfind. unfold get_status, exception_reporting_priority, first_reported.
  by rewrite find_collected_role, Hfind.
Qed.

Lemma get_status_waiting endpoint r :
  find unsupported_role endpoint = None ->
  find incomplete endpoint = Some r ->
  get_status endpoint
  = Ok (Some (VStatus (WaitingStatus (waiting_message (_remote_app_name r))))).
Proof.
  intros Hrole Hfind. unfold get_status, exception_reporting_priority, first_reported.
  by rewrite find_collected_role, Hrole, find_collected_incomplete, Hfind.
Qed.

Lemma find_is_Some {A} (f : A -> bool) (l : list A) x :
  x ∈ l -> f x = true -> exists y, find f l = Some y.
Proof.
  intros Hin Hx. destruct (find f l) as [y|] eqn:Hfind; [eauto|].
  apply list_elem_of_In in Hin. rewrite (find_none _ _ Hfind _ Hin) in Hx. discriminate.
Qed.

(** X23 (priority of the reported condition): with no downstream relation
    [get_status] returns Blocked "Missing relation: database"; when no
    relation requests an extra role, it returns Waiting "Waiting for <app> app
    on database endpoint" for the first relation, in scan order, that is not
    tearing down and lacks the [database] key; when some relation that is not
    tearing down and has the [database] key sets a non-empty
    [extra-user-roles], it returns the string "<app> app requested unsupported
    extra user role on database endpoint" for the first such relation,
    wherever the incomplete relations stand and in whatever order the
    relations are scanned. *)
Theorem get_status_priority :
  get_status [] = Ok (Some (VStatus (BlockedStatus "Missing relation: database")))
  /\ (forall endpoint r,
        find unsupported_role endpoint = None ->
        find incomplete endpoint = Some r ->
        get_status endpoint
        = Ok (Some (VStatus (WaitingStatus
                 ("Waiting for " +:+ _remote_app_name r +:+ " app on database endpoint")))))
  /\ (forall endpoint r,
        find unsupported_role endpoint = Some r ->
        get_status endpoint
        = Ok (Some (VStr
                 (_remote_app_name r
                  +:+ " app requested unsupported extra user role on database endpoint"))))
  /\ (forall endpoint scanned r,
        r ∈ endpoint ->
        unsupported_role r = true ->
        endpoint ≡ₚ scanned ->
        exists r',
          r' ∈ endpoint
          /\ unsupported_role r' = true
          /\ get_status scanned
             = Ok (Some (VStr (role_message (_remote_app_name r'))))).
Proof.
  split_and!.
  - reflexivity.
  - apply get_status_waiting.
  - apply get_status_role.
  - intros endpoint scanned r Hin Hrole Hperm.
    rewrite Hperm in Hin.
    destruct (find_is_Some unsupported_role scanned r Hin Hrole) as [r' Hfind].
    pose proof (find_some _ _ Hfind) as [Hin' Hrole'].
    exists r'. split_and!; [|done|by apply get_status_role].
    rewrite Hperm. by apply list_elem_of_In.
Qed.

Lemma get_status_priority_witness :
  get_status [incomplete_client; complete_client]
  = Ok (Some (VStatus (WaitingStatus "Waiting for mediawiki app on database endpoint")))
  /\ get_status sample_endpoint
     = Ok (Some (VStr
              "keystone app requested unsupported extra user role on database endpoint"))
  /\ (exists r',
        r' ∈ [incomplete_client; role_client]
        /\ unsupported_role r' = true
        /\ get_status [role_client; incomplete_client]
           = Ok (Some (VStr (role_message (_remote_app_name r'))))).
Proof.
  destruct get_status_priority as (_ & Hwaiting & Hrole & Horder).
  split_and!.
  - apply (Hwaiting [incomplete_client; complete_client] incomplete_client);
      vm_compute; reflexivity.
  - apply (Hrole sample_endpoint role_client). vm_compute. reflexivity.
  - apply (Horder [incomplete_client; role_client] [role_client; incomplete_client]
             role_client).
    + right. left.
    + vm_compute. reflexivity.
    + apply Permutation_swap.
Defined.

(** A relation that sets [extra-user-roles] but lacks the [database] key is
    reported as Waiting: the constructor looks for the key first. *)
Lemma get_status_role_without_database :
  remote_app role_without_database_client !! "extra-user-roles" = Some "admin"
  /\ get_status [role_without_database_client]
     = Ok (Some (VStatus (WaitingStatus "Waiting for grafana app on database endpoint")))
  /\ get_status [role_without_database_client]
     <> Ok (Some (VStatus (BlockedStatus
              "grafana app requested unsupported extra user role on database endpoint"))).
Proof. split_and!; [vm_compute; reflexivity | vm_compute; reflexivity | vm_compute; discriminate]. Qed.

(** C3 (priority of the reported condition), where the code departs from it:
    for one relation, not tearing down, that has the [database] key and sets
    [extra-user-roles], [get_status] returns the bare message string, the one
    argument that [_UnsupportedExtraUserRole] is raised with, and not the
    Blocked status carrying that message. *)
Lemma get_status_role_is_plain_string :
  get_status [role_client]
  = Ok (Some (VStr "keystone app requested unsupported extra user role on database endpoint"))
  /\ get_status [role_client]
     <> Ok (Some (VStatus (BlockedStatus
              "keystone app requested unsupported extra user role on database endpoint"))).
Proof. split; [vm_compute; reflexivity | vm_compute; discriminate]. Qed.

End status_properties.

(** ** Upstream resolution *)

Section upstream_properties.
Import database_requires.

Lemma split_length c s : length (split c s) = S (occurrences c s).
Proof.
  induction s as [|c' s IH]; [done|]. simpl.
  destruct (Ascii.eqb c' c); simpl; [by rewrite IH|].
  destruct (split c s); [discriminate|]. simpl in *. done.
Qed.

Lemma split_no_separator c s : occurrences c s = 0 -> split c s = [s].
Proof.
  induction s as [|c' s IH]; [done|]. simpl.
  destruct (Ascii.eqb c' c); simpl; [discriminate|].
  intros Hs. by rewrite IH.
Qed.

Lemma resolution_handled is_leader relations st :
  (resolution is_leader relations st).2
  = handled (ConnectionInformation__init__ is_leader relations st).2.
Proof.
  unfold resolution, handled.
  destruct (ConnectionInformation__init__ is_leader relations st) as [st' [info|e]];
    simpl; [done|].
  destruct (_ || _); [|done]. by destruct (args e).
Qed.

Lemma resolution_state is_leader relations st :
  (resolution is_leader relations st).1
  = (ConnectionInformation__init__ is_leader relations st).1.
Proof.
  unfold resolution.
  destruct (ConnectionInformation__init__ is_leader relations st) as [st' [info|e]];
    simpl; [done|].
  destruct (_ || _); [|done]. by destruct (args e).
Qed.

(** The [try] block of [ConnectionInformation.__init__] only reads the remote
    bag. *)
Lemma ConnectionInformation__init__eq is_leader relation st :
  ConnectionInformation__init__ is_leader [relation] st
  = (if is_leader then set_bag relation (leader_request (my_app st relation)) st else st,
     if breaking relation
     then Raise (_RelationBreaking _MissingRelation__init__args)
     else expected_outcome relation).
Proof.
  unfold ConnectionInformation__init__, expected_outcome, upstream_waiting.
  set (st1 := if is_leader then _ else st).
  assert (Hwrite :
    (if is_leader
     then setitem (E := exn) relation "database" "mysql_innodb_cluster_metadata" ;;;
          setitem relation "extra-user-roles" "mysqlrouter"
     else ret tt) st = (st1, Ok tt)).
  { subst st1. destruct is_leader; [|done].
    unfold bind, setitem, set_bag, my_app, leader_request. simpl.
    by rewrite lookup_total_insert_eq, insert_insert_eq. }
  simpl. unfold bind at 1. simpl. unfold bind at 1. rewrite Hwrite.
  destruct (breaking relation); [done|].
  unfold bind at 1. simpl. unfold try_except, bind, getitem, assert, index, raise, ret.
  destruct (remote_app relation !! "endpoints") as [e|]; [|done].
  rewrite split_length.
  destruct (decide (occurrences "," e = 0)) as [Hcomma|Hcomma].
  - rewrite Hcomma, (split_no_separator _ _ Hcomma). simpl.
    pose proof (split_length ":" e) as Hlen.
    destruct (split ":" e) as [|host [|port rest]] eqn:Hsplit; simpl in *; [done| |].
    + rewrite decide_True by lia. done.
    + rewrite decide_False by lia.
      destruct (remote_app relation !! "username"); [|done].
      by destruct (remote_app relation !! "password").
  - destruct (occurrences "," e); [done|]. done.
Qed.

Lemma leader_request_idemp old : leader_request (leader_request old) = leader_request old.
Proof.
  unfold leader_request. apply map_eq. intros k.
  rewrite !lookup_insert. by repeat case_decide.
Qed.

(** C7, as amended (upstream tearing down): when the one backing-cluster
    relationship is tearing down, resolution fails with [_RelationBreaking],
    a sub-kind of [_MissingRelation] that the handler tells apart by setting
    [relation_breaking]; the reported status is the same Blocked
    "Missing relation: backend-database" as for an absent relationship. *)
Theorem breaking_upstream_is_missing_relation is_leader relation st :
  breaking relation = true ->
  let e := _RelationBreaking _MissingRelation__init__args in
  let blocked := VStatus (BlockedStatus "Missing relation: backend-database") in
  (ConnectionInformation__init__ is_leader [relation] st).2 = Raise e
  /\ isinstance e T_RelationBreaking = true
  /\ isinstance e T_MissingRelation = true
  /\ isinstance (_MissingRelation _MissingRelation__init__args) T_RelationBreaking = false
  /\ (resolution is_leader [relation] st).2
     = Ok {| connection_info := None; relation_breaking := true;
             status := Some blocked |}
  /\ (resolution is_leader [] st).2
     = Ok {| connection_info := None; relation_breaking := false;
             status := Some blocked |}.
Proof.
  intros Hbreaking e blocked.
  assert (Hinit : (ConnectionInformation__init__ is_leader [relation] st).2 = Raise e)
    by by rewrite ConnectionInformation__init__eq, Hbreaking.
  split_and!; try done.
  by rewrite resolution_handled, Hinit.
Qed.

Lemma breaking_upstream_is_missing_relation_witness :
  (resolution true [breaking_upstream] empty_state).2
  = Ok {| connection_info := None; relation_breaking := true;
          status := Some (VStatus (BlockedStatus "Missing relation: backend-database")) |}.
Proof.
  apply (breaking_upstream_is_missing_relation true breaking_upstream empty_state).
  reflexivity.
Defined.

(** The claim as it was stated fails: a tearing-down upstream is not reported
    as Waiting. *)
Lemma breaking_upstream_not_waiting :
  breaking breaking_upstream = true
  /\ ~ exists res message,
        (resolution false [breaking_upstream] empty_state).2 = Ok res
        /\ status res = Some (VStatus (WaitingStatus message)).
Proof.
  split; [reflexivity|]. intros (res & message & Hres & Hstatus).
  vm_compute in Hres. inversion Hres; subst res. discriminate.
Qed.

(** C8, as amended (the leader's own request): the leader writes
    [database = "mysql_innodb_cluster_metadata"] and
    [extra-user-roles = "mysqlrouter"] into its local bag whenever exactly
    one backing-cluster relationship exists, before the tearing-down check
    and before the remote keys are read, hence also when resolution fails;
    a unit that is not the leader writes nothing; no other bag and no backend
    is touched; and a second call changes nothing more and ends the same
    way. *)
Theorem leader_request_written_before_resolution is_leader relations st :
  let out := ConnectionInformation__init__ is_leader relations st in
  calls out.1 = calls st
  /\ bags out.1
     = match relations with
       | [relation] =>
           if is_leader
           then <[id relation := leader_request (my_app st relation)]> (bags st)
           else bags st
       | _ => bags st
       end
  /\ ConnectionInformation__init__ is_leader relations out.1 = out.
Proof.
  destruct relations as [|relation [|relation' rest]]; [by split_and!| |by split_and!].
  cbv zeta. rewrite !ConnectionInformation__init__eq. simpl.
  destruct is_leader; [|by split_and!].
  split_and!; [done|done|]. f_equal.
  rewrite my_app_set_bag, decide_True, leader_request_idemp by done.
  unfold set_bag. simpl. by rewrite insert_insert_eq.
Qed.

(** The claim as it was stated fails: the leader's bag is written although
    resolution fails for want of the remote keys. *)
Lemma leader_request_written_on_failed_resolution :
  let out := resolution true [silent_upstream] empty_state in
  out.2 = Ok {| connection_info := None; relation_breaking := false;
                status := Some (VStatus (WaitingStatus
                            "Waiting for mysql app on backend-database endpoint")) |}
  /\ my_app empty_state silent_upstream = ∅
  /\ my_app out.1 silent_upstream
     = {[ "database" := "mysql_innodb_cluster_metadata";
          "extra-user-roles" := "mysqlrouter" ]}
  /\ my_app out.1 silent_upstream <> my_app empty_state silent_upstream.
Proof.
  split_and!; [vm_compute; reflexivity ..|].
  intros Heq. apply (f_equal (fun bag => bag !! "database")) in Heq.
  vm_compute in Heq. discriminate.
Qed.

(** C10 (incomplete upstream): for the one backing-cluster relationship, not
    tearing down, resolution ends in [_IncompleteDatabag] (status Waiting)
    only when one of the remote keys [endpoints], [username], [password] is
    absent, and it does so whenever one is absent unless [endpoints] is there
    and malformed; an [endpoints] value with more than one comma-separated
    endpoint ends in [AssertionError], a single endpoint without [:] ends in
    [IndexError], and neither is turned into a status by the module-level
    handler. *)
Theorem incomplete_upstream_iff_missing_key is_leader relation st :
  breaking relation = false ->
  let remote := remote_app relation in
  let out := (ConnectionInformation__init__ is_leader [relation] st).2 in
  let resolved := (resolution is_leader [relation] st).2 in
  let key_absent :=
    remote !! "endpoints" = None \/ remote !! "username" = None
    \/ remote !! "password" = None in
  let malformed :=
    exists e, remote !! "endpoints" = Some e
              /\ (occurrences "," e <> 0 \/ occurrences ":" e = 0) in
  ((exists a, out = Raise (_IncompleteDatabag a)) <-> key_absent /\ ~ malformed)
  /\ (key_absent -> ~ malformed ->
      resolved
      = Ok {| connection_info := None; relation_breaking := false;
              status := Some (VStatus (WaitingStatus
                          ("Waiting for " +:+ _remote_app_name relation
                           +:+ " app on backend-database endpoint"))) |})
  /\ (forall e, remote !! "endpoints" = Some e -> occurrences "," e <> 0 ->
      out = Raise AssertionError /\ resolved = Raise AssertionError)
  /\ (forall e, remote !! "endpoints" = Some e ->
      occurrences "," e = 0 -> occurrences ":" e = 0 ->
      out = Raise IndexError /\ resolved = Raise IndexError).
Proof.
  intros Hbreaking remote out resolved key_absent malformed.
  assert (Hout : out = expected_outcome relation).
  { subst out. by rewrite ConnectionInformation__init__eq, Hbreaking. }
  assert (Hres : resolved = handled (expected_outcome relation)).
  { subst resolved. by rewrite resolution_handled, <- Hout. }
  assert (Hwaiting : key_absent -> ~ malformed ->
            expected_outcome relation = Raise (upstream_waiting relation)).
  { intros Habsent Hwell. unfold expected_outcome. fold remote.
    destruct (remote !! "endpoints") as [e|] eqn:He; [|done].
    destruct (decide (occurrences "," e = 0)) as [Hcomma|Hcomma];
      [|destruct Hwell; exists e; eauto].
    destruct (decide (occurrences ":" e = 0)) as [Hcolon|Hcolon];
      [destruct Hwell; exists e; eauto|].
    destruct Habsent as [?|[-> | ->]]; [done|done|].
    by destruct (remote !! "username"). }
  rewrite Hout, Hres. split_and!.
  - split.
    + intros [a Ha]. unfold expected_outcome in Ha. fold remote in Ha.
      subst key_absent malformed.
      destruct (remote !! "endpoints") as [e|] eqn:He.
      * destruct (decide (occurrences "," e = 0)) as [Hcomma|Hcomma]; [|discriminate].
        destruct (decide (occurrences ":" e = 0)) as [Hcolon|Hcolon]; [discriminate|].
        split.
        -- destruct (remote !! "username"); [|by eauto].
           destruct (remote !! "password"); [discriminate | by eauto].
        -- intros (e' & [= <-] & [?|?]); done.
      * split; [by left|]. intros (e' & ? & _). discriminate.
    + intros [Habsent Hwell]. rewrite Hwaiting by done. eexists. reflexivity.
  - intros Habsent Hwell. by rewrite Hwaiting.
  - intros e He Hcomma. unfold expected_outcome. fold remote. rewrite He.
    by rewrite decide_False.
  - intros e He Hcomma Hcolon. unfold expected_outcome. fold remote. rewrite He.
    by rewrite !decide_True.
Qed.

Lemma incomplete_upstream_iff_missing_key_witness :
  (resolution false [no_password_upstream] empty_state).2
  = Ok {| connection_info := None; relation_breaking := false;
          status := Some (VStatus (WaitingStatus
                      "Waiting for mysql app on backend-database endpoint")) |}
  /\ (resolution false [two_endpoints_upstream] empty_state).2 = Raise AssertionError
  /\ (resolution false [no_port_upstream] empty_state).2 = Raise IndexError.
Proof.
  split_and!.
  - destruct (incomplete_upstream_iff_missing_key false no_password_upstream empty_state)
      as (_ & Hwaiting & _); [reflexivity|].
    apply Hwaiting.
    + right. right. vm_compute. reflexivity.
    + intros (e & He & Hbad). vm_compute in He. inversion He; subst e.
      vm_compute in Hbad. destruct Hbad; [done | discriminate].
  - destruct (incomplete_upstream_iff_missing_key false two_endpoints_upstream empty_state)
      as (_ & _ & Hassert & _); [reflexivity|].
    apply (Hassert "10.0.0.5:3306,10.0.0.6:3306"); vm_compute; [reflexivity | discriminate].
  - destruct (incomplete_upstream_iff_missing_key false no_port_upstream empty_state)
      as (_ & _ & _ & Hindex); [reflexivity|].
    apply (Hindex "localhost"); vm_compute; reflexivity.
Defined.

End upstream_properties.

(** ** Status priority *)

Section status_priority_properties.
Import abstract_charm.

Lemma isinstance_rank status n t :
  status_priority !! n = Some t ->
  isinstance status t = true <-> (rank status <= n /\ (n < 3 -> rank status = n)).
Proof.
  unfold status_priority.
  destruct n as [|[|[|[|n]]]]; simpl; intros [= <-];
    destruct status; simpl; split; try done; try lia.
  all: intros [? ?]; lia.
Qed.

(** The first element that satisfies a test splits the list. *)
Lemma find_split {A} (f : A -> bool) (l : list A) x :
  find f l = Some x ->
  exists l1 l2, l = (l1 ++ x :: l2)%list /\ f x = true
                /\ forall y, y ∈ l1 -> f y = false.
Proof.
  induction l as [|a l IH]; [done|]. simpl.
  destruct (f a) eqn:Ha.
  - intros [= <-]. exists [], l. split_and!; [done|done|]. by intros y ?%elem_of_nil.
  - intros (l1 & l2 & -> & Hx & Hl1)%IH. exists (a :: l1), l2.
    split_and!; [done|done|]. intros y [->|?]%elem_of_cons; eauto.
Qed.

Lemma find_none_iff {A} (f : A -> bool) (l : list A) :
  find f l = None <-> forall y, y ∈ l -> f y = false.
Proof.
  split.
  - intros Hnone y Hy. apply (find_none _ _ Hnone). by apply list_elem_of_In.
  - intros Hall. destruct (find f l) as [x|] eqn:Hfind; [|done].
    apply find_some in Hfind as [Hin Hx]. apply list_elem_of_In in Hin.
    rewrite (Hall x Hin) in Hx. discriminate.
Qed.

Lemma first_of_best statuses :
  statuses <> [] ->
  exists l1 l2,
    statuses = (l1 ++ _prioritize_statuses statuses :: l2)%list
    /\ (forall y, y ∈ l1 -> rank (_prioritize_statuses statuses) < rank y)
    /\ (forall y, y ∈ l2 -> rank (_prioritize_statuses statuses) <= rank y).
Proof.
  intros Hne. unfold _prioritize_statuses, status_priority, first_instance.
  destruct (find (fun s => isinstance s T_BlockedStatus) statuses) as [x|] eqn:H0.
  { apply find_split in H0 as (l1 & l2 & -> & Hx & Hl1). exists l1, l2.
    split_and!; [done| |].
    - intros y Hy. specialize (Hl1 y Hy). destruct x, y; simpl in *; try done; lia.
    - intros y Hy. destruct x; simpl in *; try done; lia. }
  rewrite find_none_iff in H0.
  destruct (find (fun s => isinstance s T_WaitingStatus) statuses) as [x|] eqn:H1.
  { apply find_split in H1 as (l1 & l2 & Hl & Hx & Hl1). exists l1, l2.
    split_and!; [done| |].
    - intros y Hy. specialize (Hl1 y Hy).
      assert (Hy0 : isinstance y T_BlockedStatus = false)
        by (apply H0; rewrite Hl; set_solver).
      destruct x, y; simpl in *; try done; lia.
    - intros y Hy.
      assert (Hy0 : isinstance y T_BlockedStatus = false)
        by (apply H0; rewrite Hl; set_solver).
      destruct x, y; simpl in *; try done; lia. }
  rewrite find_none_iff in H1.
  destruct (find (fun s => isinstance s T_MaintenanceStatus) statuses) as [x|] eqn:H2.
  { apply find_split in H2 as (l1 & l2 & Hl & Hx & Hl1). exists l1, l2.
    split_and!; [done| |].
    - intros y Hy. specialize (Hl1 y Hy).
      assert (Hy0 : isinstance y T_BlockedStatus = false)
        by (apply H0; rewrite Hl; set_solver).
      assert (Hy1 : isinstance y T_WaitingStatus = false)
        by (apply H1; rewrite Hl; set_solver).
      destruct x, y; simpl in *; try done; lia.
    - intros y Hy.
      assert (Hy0 : isinstance y T_BlockedStatus = false)
        by (apply H0; rewrite Hl; set_solver).
      assert (Hy1 : isinstance y T_WaitingStatus = false)
        by (apply H1; rewrite Hl; set_solver).
      destruct x, y; simpl in *; try done; lia. }
  rewrite find_none_iff in H2.
  destruct statuses as [|x statuses]; [done|]. simpl.
  replace (isinstance x T_StatusBase) with true by by destruct x.
  exists [], statuses. split_and!; [done|by intros y ?%elem_of_nil|].
  intros y Hy.
  assert (Hx0 : isinstance x T_BlockedStatus = false) by (apply H0; set_solver).
  assert (Hx1 : isinstance x T_WaitingStatus = false) by (apply H1; set_solver).
  assert (Hx2 : isinstance x T_MaintenanceStatus = false) by (apply H2; set_solver).
  assert (Hy0 : isinstance y T_BlockedStatus = false) by (apply H0; set_solver).
  assert (Hy1 : isinstance y T_WaitingStatus = false) by (apply H1; set_solver).
  assert (Hy2 : isinstance y T_MaintenanceStatus = false) by (apply H2; set_solver).
  destruct x, y; simpl in *; try done; lia.
Qed.

(** X1: [_prioritize_statuses] returns an element of a non-empty list, of the
    best priority found in it (Blocked before Waiting before Maintenance
    before any other status), and the first one of that priority: every
    status before it in the list is strictly worse, none after it is
    better. *)
Theorem _prioritize_statuses_first_of_best statuses :
  statuses <> [] ->
  exists l1 l2,
    statuses = (l1 ++ _prioritize_statuses statuses :: l2)%list
    /\ (forall y, y ∈ l1 -> rank (_prioritize_statuses statuses) < rank y)
    /\ (forall y, y ∈ l2 -> rank (_prioritize_statuses statuses) <= rank y).
Proof. apply first_of_best. Qed.

Lemma _prioritize_statuses_first_of_best_witness :
  exists l1 l2,
    [WaitingStatus "a"; BlockedStatus "b"; BlockedStatus "c"]
    = (l1 ++ BlockedStatus "b" :: l2)%list
    /\ (forall y, y ∈ l1 -> 0 < rank y)
    /\ (forall y, y ∈ l2 -> 0 <= rank y).
Proof.
  apply (_prioritize_statuses_first_of_best
           [WaitingStatus "a"; BlockedStatus "b"; BlockedStatus "c"]).
  discriminate.
Defined.

Lemma min_rank_le statuses : min_rank statuses <= 3.
Proof. induction statuses as [|x l IH]; simpl; lia. Qed.

Lemma min_rank_split l1 x l2 :
  (forall y, y ∈ l1 -> rank x <= rank y) ->
  (forall y, y ∈ l2 -> rank x <= rank y) ->
  min_rank (l1 ++ x :: l2) = rank x.
Proof.
  intros H1 H2.
  assert (Hge : forall l, (forall y, y ∈ l -> rank x <= rank y) ->
            Nat.min (rank x) (min_rank l) = rank x).
  { induction l as [|y l IH]; intros Hl; simpl.
    - destruct x; simpl; lia.
    - assert (rank x <= rank y) by (apply Hl; set_solver).
      assert (Nat.min (rank x) (min_rank l) = rank x) by (apply IH; set_solver).
      lia. }
  induction l1 as [|y l1 IH]; simpl.
  - by apply Hge.
  - rewrite IH by set_solver.
    assert (rank x <= rank y) by (apply H1; set_solver). lia.
Qed.

Lemma min_rank_perm l l' : l ≡ₚ l' -> min_rank l = min_rank l'.
Proof. induction 1; simpl; lia. Qed.

(** X2: the priority of the status that [_prioritize_statuses] returns is the
    best priority present in the list, so it does not depend on the order in
    which the candidates were collected. *)
Theorem _prioritize_statuses_order_independent statuses statuses' :
  statuses ≡ₚ statuses' ->
  rank (_prioritize_statuses statuses) = min_rank statuses
  /\ rank (_prioritize_statuses statuses') = rank (_prioritize_statuses statuses).
Proof.
  assert (Hmin : forall l, rank (_prioritize_statuses l) = min_rank l).
  { intros l. destruct (decide (l = [])) as [->|Hne]; [done|].
    destruct (first_of_best l Hne) as (l1 & l2 & Hl & H1 & H2).
    rewrite Hl at 2. symmetry. apply min_rank_split.
    - intros y Hy. specialize (H1 y Hy). lia.
    - done. }
  intros Hperm. rewrite !Hmin. split; [done|]. symmetry. by apply min_rank_perm.
Qed.

Lemma _prioritize_statuses_order_independent_witness :
  rank (_prioritize_statuses [WaitingStatus "a"; BlockedStatus "b"]) = 0
  /\ rank (_prioritize_statuses [BlockedStatus "b"; WaitingStatus "a"])
     = rank (_prioritize_statuses [WaitingStatus "a"; BlockedStatus "b"]).
Proof.
  apply (_prioritize_statuses_order_independent
           [WaitingStatus "a"; BlockedStatus "b"] [BlockedStatus "b"; WaitingStatus "a"]).
  apply Permutation_swap.
Defined.

(** X3: [_determine_app_status] reports Active when neither endpoint has a
    status, the one status when only one endpoint has one, and otherwise the
    status of better priority, that of the [database_requires] endpoint when
    the priorities are equal. *)
Theorem _determine_app_status_cases :
  _determine_app_status None None = ActiveStatus ""
  /\ (forall status, _determine_app_status None (Some status) = status)
  /\ (forall status, _determine_app_status (Some status) None = status)
  /\ (forall requires_status provides_status,
        rank requires_status <= rank provides_status ->
        _determine_app_status (Some requires_status) (Some provides_status)
        = requires_status)
  /\ (forall requires_status provides_status,
        rank provides_status < rank requires_status ->
        _determine_app_status (Some requires_status) (Some provides_status)
        = provides_status).
Proof.
  split_and!; [done|by intros []|by intros []| |].
  - intros [] []; simpl; intros; try done; lia.
  - intros [] []; simpl; intros; try done; lia.
Qed.

Lemma _determine_app_status_cases_witness :
  _determine_app_status (Some (BlockedStatus "Missing relation: backend-database"))
                        (Some (BlockedStatus "Missing relation: database"))
  = BlockedStatus "Missing relation: backend-database"
  /\ _determine_app_status (Some (WaitingStatus "Waiting for mysql app"))
                           (Some (BlockedStatus "Missing relation: database"))
     = BlockedStatus "Missing relation: database".
Proof.
  destruct _determine_app_status_cases as (_ & _ & _ & Htie & Hbetter).
  split.
  - apply Htie. simpl. lia.
  - apply Hbetter. simpl. lia.
Defined.

End status_priority_properties.

(** ** More on the status of the downstream endpoint *)

Section status_extras.
Import database_provides.

Lemma find_role_none endpoint :
  find unsupported_role endpoint = None
  <-> forall r, r ∈ endpoint -> unsupported_role r = false.
Proof. apply find_none_iff. Qed.

Lemma well_formed_request_cases r :
  well_formed_request r
  = negb (breaking r) && negb (incomplete r) && negb (unsupported_role r).
Proof.
  unfold well_formed_request, incomplete, unsupported_role.
  destruct (breaking r); [done|]. simpl.
  destruct (remote_app r !! "database") as [database|].
  - rewrite (bool_decide_eq_true_2 (is_Some (Some database))) by eauto.
    by rewrite (bool_decide_eq_false_2 (Some database = None)).
  - by rewrite (bool_decide_eq_false_2 (is_Some None)) by (intros [? ?]; discriminate).
Qed.

Lemma requested_nil_iff endpoint :
  requested endpoint = [] <-> forall r, r ∈ endpoint -> well_formed_request r = false.
Proof.
  split.
  - intros Hnil r Hin. destruct (well_formed_request r) eqn:Hwf; [|done].
    apply init_ok_iff in Hwf as [u Hu].
    assert (u ∈ requested endpoint) as Hu' by (apply elem_of_requested; eauto).
    rewrite Hnil in Hu'. by apply elem_of_nil in Hu'.
  - intros Hall. destruct (requested endpoint) as [|u l] eqn:Hreq; [done|].
    assert (u ∈ requested endpoint) as Hu by (rewrite Hreq; left).
    apply elem_of_requested in Hu as (r & Hin & Hr).
    assert (well_formed_request r = true) as Hwf by (apply init_ok_iff; eauto).
    rewrite Hall in Hwf by done. discriminate.
Qed.

(** When no exception is kept, [get_status] looks at [requested_users]. *)
Lemma get_status_quiet endpoint :
  find unsupported_role endpoint = None ->
  find incomplete endpoint = None ->
  get_status endpoint
  = match requested endpoint with
    | [] => Ok (Some (VStatus (BlockedStatus "Missing relation: database")))
    | _ :: _ => Ok None
    end.
Proof.
  intros Hrole Hinc. unfold get_status, exception_reporting_priority, first_reported.
  by rewrite find_collected_role, Hrole, find_collected_incomplete, Hinc.
Qed.

(** X4: [get_status] returns no status (Python [None]) exactly when every
    relation is tearing down or has a well-formed request, and at least one
    has a well-formed request. *)
Theorem get_status_none_iff endpoint :
  get_status endpoint = Ok None
  <-> (forall r, r ∈ endpoint -> breaking r = true \/ well_formed_request r = true)
      /\ exists r, r ∈ endpoint /\ well_formed_request r = true.
Proof.
  split.
  - intros Hnone.
    destruct (find unsupported_role endpoint) as [r|] eqn:Hrole.
    { rewrite (get_status_role _ _ Hrole) in Hnone. discriminate. }
    destruct (find incomplete endpoint) as [r|] eqn:Hinc.
    { rewrite (get_status_waiting _ _ Hrole Hinc) in Hnone. discriminate. }
    rewrite get_status_quiet in Hnone by done.
    rewrite find_none_iff in Hrole. rewrite find_none_iff in Hinc. split.
    + intros r Hin. rewrite well_formed_request_cases, Hrole, Hinc by done.
      destruct (breaking r); eauto.
    + destruct (requested endpoint) as [|u l] eqn:Hreq; [discriminate|].
      assert (u ∈ requested endpoint) as Hu by (rewrite Hreq; left).
      apply elem_of_requested in Hu as (r & Hin & Hr).
      exists r. split; [done|]. apply init_ok_iff. eauto.
  - intros [Hall (r & Hin & Hwf)].
    assert (forall x, x ∈ endpoint -> unsupported_role x = false /\ incomplete x = false)
      as Hquiet.
    { intros x Hx. destruct (Hall x Hx) as [Hb|Hw].
      - unfold unsupported_role, incomplete. by rewrite Hb.
      - rewrite well_formed_request_cases in Hw.
        destruct (unsupported_role x), (incomplete x), (breaking x); done. }
    rewrite get_status_quiet.
    + destruct (requested endpoint) eqn:Hreq; [|done].
      rewrite requested_nil_iff in Hreq. rewrite Hreq in Hwf by done. discriminate.
    + apply find_none_iff. intros x Hx. by apply Hquiet.
    + apply find_none_iff. intros x Hx. by apply Hquiet.
Qed.

Lemma get_status_none_iff_witness :
  get_status [breaking_client; complete_client; second_client] = Ok None.
Proof.
  apply get_status_none_iff. split.
  - intros r Hin. rewrite !elem_of_cons in Hin.
    destruct Hin as [->|[->|[->|Hin]]]; [left|right|right|by apply elem_of_nil in Hin];
      reflexivity.
  - exists complete_client. split; [set_solver | reflexivity].
Defined.

(** X5: [get_status] never fails on [args[0]], and what it returns is either
    nothing, or the Waiting status naming an incomplete relation of the
    endpoint, or Blocked "Missing relation: database", or the message naming
    a relation of the endpoint that requests an extra role. *)
Theorem get_status_results endpoint :
  get_status endpoint = Ok None
  \/ get_status endpoint
     = Ok (Some (VStatus (BlockedStatus "Missing relation: database")))
  \/ (exists r, r ∈ endpoint /\ incomplete r = true
        /\ get_status endpoint
           = Ok (Some (VStatus (WaitingStatus (waiting_message (_remote_app_name r))))))
  \/ (exists r, r ∈ endpoint /\ unsupported_role r = true
        /\ get_status endpoint = Ok (Some (VStr (role_message (_remote_app_name r))))).
Proof.
  destruct (find unsupported_role endpoint) as [r|] eqn:Hrole.
  { right; right; right. exists r. pose proof (find_some _ _ Hrole) as [Hin Hr].
    split_and!; [by apply list_elem_of_In | done | by apply get_status_role]. }
  destruct (find incomplete endpoint) as [r|] eqn:Hinc.
  { right; right; left. exists r. pose proof (find_some _ _ Hinc) as [Hin Hr].
    split_and!; [by apply list_elem_of_In | done | by apply get_status_waiting]. }
  rewrite get_status_quiet by done.
  destruct (requested endpoint); [right; by left | by left].
Qed.

(** X6: relations that are all tearing down count as no relation: the status
    is Blocked "Missing relation: database", whatever their remote bags
    hold. *)
Theorem get_status_all_breaking endpoint :
  (forall r, r ∈ endpoint -> breaking r = true) ->
  get_status endpoint = Ok (Some (VStatus (BlockedStatus "Missing relation: database"))).
Proof.
  intros Hall.
  assert (forall r, r ∈ endpoint ->
            unsupported_role r = false /\ incomplete r = false
            /\ well_formed_request r = false) as Hquiet.
  { intros r Hin. unfold unsupported_role, incomplete, well_formed_request.
    by rewrite (Hall r Hin). }
  rewrite get_status_quiet.
  - replace (requested endpoint) with (@nil _RelationThatRequestedUser); [done|].
    symmetry. apply requested_nil_iff. intros r Hin. by apply Hquiet.
  - apply find_none_iff. intros r Hin. by apply Hquiet.
  - apply find_none_iff. intros r Hin. by apply Hquiet.
Qed.

Lemma get_status_all_breaking_witness :
  get_status [breaking_client]
  = Ok (Some (VStatus (BlockedStatus "Missing relation: database"))).
Proof.
  apply get_status_all_breaking.
  intros r Hin. apply list_elem_of_singleton in Hin as ->. reflexivity.
Defined.

End status_extras.

(** ** More on reconciliation *)

Section reconcile_extras.
Import database_provides.

Lemma rel_in_requested_endpoint r endpoint :
  rel_in r (requested_relation <$> requested endpoint) = true ->
  rel_in r endpoint = true.
Proof.
  intros (r' & Hin & Hid & _)%rel_in_requested. apply rel_in_spec. eauto.
Qed.

(** What a pass can do to a bag, with the reason. *)
Lemma reconcile_users_changes endpoint rw ro shell st st' res r :
  reconcile_users endpoint rw ro shell st = (st', res) ->
  my_app st' r = my_app st r
  \/ (rel_in r (requested_relation <$> requested endpoint) = true
      /\ has_all_keys (my_app st r) = false)
  \/ (rel_in r endpoint = true
      /\ rel_in r (requested_relation <$> requested endpoint) = false).
Proof.
  intros [(st1 & H1 & H2)|(e & H1 & _)]%reconcile_users_inv.
  - destruct (delete_loop_effect _ _ _ _ _ _ H2 r) as [Hr2|(_ & Hin & Hreq)].
    + destruct (create_loop_effect _ _ _ _ _ (requested_rel_in endpoint) _ _ _ H1 r)
        as [Hr1|(Hin & Hno & _)]; [left; congruence | right; left; done].
    + right; right. split; [|done].
      rewrite rel_in_created in Hin. by apply andb_true_iff in Hin as [? _].
  - destruct (create_loop_effect _ _ _ _ _ (requested_rel_in endpoint) _ _ _ H1 r)
      as [Hr1|(Hin & Hno & _)]; [by left | right; left; done].
Qed.

(** X7: a pass never rewrites the grant of a relation that is still
    requested: its bag, password included, is left as it was, whether the
    pass runs to its end or is cut short. *)
Theorem reconcile_users_keeps_grant endpoint rw ro shell st st' res r :
  reconcile_users endpoint rw ro shell st = (st', res) ->
  has_all_keys (my_app st r) = true ->
  rel_in r (requested_relation <$> requested endpoint) = true ->
  my_app st' r = my_app st r.
Proof.
  intros Hrun Hk Hreq.
  destruct (reconcile_users_changes _ _ _ _ _ _ _ r Hrun) as [?|[[_ ?]|[_ ?]]];
    [done|congruence|congruence].
Qed.

Lemma reconcile_users_keeps_grant_witness :
  my_app (reconcile_users sample_endpoint "other.sock" "other-ro.sock" failing_shell
            sample_state).1 complete_client
  = my_app sample_state complete_client.
Proof.
  apply (reconcile_users_keeps_grant sample_endpoint "other.sock" "other-ro.sock"
           failing_shell sample_state _
           (reconcile_users sample_endpoint "other.sock" "other-ro.sock" failing_shell
              sample_state).2).
  - by destruct (reconcile_users _ _ _ _ _).
  - vm_compute. reflexivity.
  - vm_compute. reflexivity.
Defined.

(** X8: a pass only touches the bags of the relations of its endpoint. *)
Theorem reconcile_users_frame endpoint rw ro shell st st' res r :
  reconcile_users endpoint rw ro shell st = (st', res) ->
  rel_in r endpoint = false ->
  my_app st' r = my_app st r.
Proof.
  intros Hrun Hout.
  destruct (reconcile_users_changes _ _ _ _ _ _ _ r Hrun) as [?|[[Hreq _]|[? _]]];
    [done| |congruence].
  apply rel_in_requested_endpoint in Hreq. congruence.
Qed.

Lemma reconcile_users_frame_witness :
  my_app sample_state role_without_database_client
  = my_app empty_state role_without_database_client.
Proof.
  apply (reconcile_users_frame sample_endpoint "rw.sock" "ro.sock" reliable_shell
           empty_state sample_state (Ok tt)).
  - vm_compute. reflexivity.
  - vm_compute. reflexivity.
Defined.

(** X9: when [get_status] has nothing to report, a pass that runs to its end
    leaves every relation that is not tearing down with a complete grant. *)
Theorem reconcile_users_serves_all endpoint rw ro shell st st' r :
  get_status endpoint = Ok None ->
  reconcile_users endpoint rw ro shell st = (st', Ok tt) ->
  r ∈ endpoint ->
  breaking r = false ->
  has_all_keys (my_app st' r) = true.
Proof.
  intros Hstatus Hrun Hin Hb.
  assert (well_formed_request r = true) as Hwf.
  { destruct (find unsupported_role endpoint) as [x|] eqn:Hrole.
    { rewrite (get_status_role _ _ Hrole) in Hstatus. discriminate. }
    destruct (find incomplete endpoint) as [x|] eqn:Hinc.
    { rewrite (get_status_waiting _ _ Hrole Hinc) in Hstatus. discriminate. }
    rewrite find_none_iff in Hrole. rewrite find_none_iff in Hinc.
    by rewrite well_formed_request_cases, Hb, Hrole, Hinc. }
  rewrite (reconcile_users_complete _ _ _ _ _ _ _ Hrun).
  - apply rel_in_requested. eauto.
  - apply rel_in_spec. eauto.
Qed.

Lemma reconcile_users_serves_all_witness :
  has_all_keys
    (my_app (reconcile_users [breaking_client; complete_client; second_client]
               "rw.sock" "ro.sock" reliable_shell empty_state).1 second_client)
  = true.
Proof.
  apply (reconcile_users_serves_all [breaking_client; complete_client; second_client]
           "rw.sock" "ro.sock" reliable_shell empty_state).
  - vm_compute. reflexivity.
  - vm_compute. reflexivity.
  - set_solver.
  - reflexivity.
Defined.

(** *** Backend calls of a pass *)

Section calls.
Variables (endpoint : list RemoteRelation) (rw ro : string).
Variable shell : mysql_shell.Shell.

Lemma create_missing_calls u st st' res :
  rel_in (requested_relation u) endpoint = true ->
  create_missing endpoint rw ro shell u st = (st', res) ->
  calls st' = calls st
  \/ (has_all_keys (my_app st (requested_relation u)) = false
      /\ calls st' = (calls st ++ [create_call shell u])%list).
Proof.
  intros Hin. rewrite create_missing_eq by done.
  destruct (has_all_keys _) eqn:Hk.
  - intros [= <- _]. by left.
  - rewrite create_database_and_user_eq. right. split; [done|].
    destruct (mysql_shell.create_answer _ _ _ _); by inversion H.
Qed.

Lemma create_loop_calls l :
  (forall u, u ∈ l -> rel_in (requested_relation u) endpoint = true) ->
  forall st st' res,
    for_ l (create_missing endpoint rw ro shell) st = (st', res) ->
    exists extra,
      calls st' = (calls st ++ extra)%list
      /\ Forall (fun c => exists u,
                   u ∈ l
                   /\ has_all_keys (my_app st (requested_relation u)) = false
                   /\ c = create_call shell u) extra.
Proof.
  induction l as [|u l IH]; intros Hl st st' res Hrun.
  { inversion Hrun; subst. exists []. by rewrite app_nil_r. }
  assert (Hu : rel_in (requested_relation u) endpoint = true) by (apply Hl; left).
  assert (Hhead : forall st1 res1,
            create_missing endpoint rw ro shell u st = (st1, res1) ->
            exists extra,
              calls st1 = (calls st ++ extra)%list
              /\ Forall (fun c => exists u0,
                           u0 ∈ u :: l
                           /\ has_all_keys (my_app st (requested_relation u0)) = false
                           /\ c = create_call shell u0) extra).
  { intros st1 res1 Hstep.
    apply create_missing_calls in Hstep as [Hc|[Hk Hc]]; [| |done].
    - exists []. by rewrite app_nil_r.
    - exists [create_call shell u]. split; [done|]. apply Forall_singleton.
      exists u. split_and!; [left|done|done]. }
  simpl in Hrun. apply bind_inv in Hrun as [(st1 & [] & H1 & Hrest)|(e & H1 & ->)];
    [|by eapply Hhead].
  destruct (Hhead _ _ H1) as (extra1 & Hc1 & HF1).
  destruct (IH (fun u' Hu' => Hl u' (list_elem_of_further _ _ _ Hu')) _ _ _ Hrest)
    as (extra2 & Hc2 & HF2).
  exists (extra1 ++ extra2)%list. split; [by rewrite Hc2, Hc1, app_assoc|].
  apply Forall_app. split; [done|].
  eapply Forall_impl; [exact HF2|]. intros c (u' & Hin' & Hk & ->).
  exists u'. split_and!; [by right| |done].
  apply create_missing_effect in H1 as [H1 _]; [|done].
  destruct (H1 (requested_relation u')) as [Heq|(_ & ? & _)]; [|done].
  by rewrite <- Heq.
Qed.

Lemma delete_unrequested_calls c st st' res :
  delete_unrequested endpoint shell c st = (st', res) ->
  calls st' = calls st
  \/ (rel_in (created_relation c) (requested_relation <$> requested endpoint) = false
      /\ calls st' = (calls st ++ [delete_call shell (created_relation c)])%list).
Proof.
  unfold delete_unrequested.
  destruct (rel_in (created_relation c) _) eqn:Hreq; simpl.
  - intros [= <- _]. by left.
  - rewrite delete_user_eq. unfold mysql_shell.delete_user. right. split; [done|].
    destruct (mysql_shell.delete_answer _ _ _); by inversion H.
Qed.

Lemma delete_loop_calls l :
  forall st st' res,
    for_ l (delete_unrequested endpoint shell) st = (st', res) ->
    exists extra,
      calls st' = (calls st ++ extra)%list
      /\ Forall (fun c => exists x,
                   x ∈ l
                   /\ rel_in (created_relation x)
                        (requested_relation <$> requested endpoint) = false
                   /\ c = delete_call shell (created_relation x)) extra.
Proof.
  induction l as [|x l IH]; intros st st' res Hrun.
  { inversion Hrun; subst. exists []. by rewrite app_nil_r. }
  assert (Hhead : forall st1 res1,
            delete_unrequested endpoint shell x st = (st1, res1) ->
            exists extra,
              calls st1 = (calls st ++ extra)%list
              /\ Forall (fun c => exists x0,
                           x0 ∈ x :: l
                           /\ rel_in (created_relation x0)
                                (requested_relation <$> requested endpoint) = false
                           /\ c = delete_call shell (created_relation x0)) extra).
  { intros st1 res1 [Hc|[Hk Hc]]%delete_unrequested_calls.
    - exists []. by rewrite app_nil_r.
    - exists [delete_call shell (created_relation x)]. split; [done|]. apply Forall_singleton.
      exists x. split_and!; [left|done|done]. }
  simpl in Hrun. apply bind_inv in Hrun as [(st1 & [] & H1 & Hrest)|(e & H1 & ->)];
    [|by eapply Hhead].
  destruct (Hhead _ _ H1) as (extra1 & Hc1 & HF1).
  destruct (IH _ _ _ Hrest) as (extra2 & Hc2 & HF2).
  exists (extra1 ++ extra2)%list. split; [by rewrite Hc2, Hc1, app_assoc|].
  apply Forall_app. split; [done|].
  eapply Forall_impl; [exact HF2|]. intros c (x' & Hin' & Hk & ->).
  exists x'. split_and!; [by right|done|done].
Qed.

(** X10: the backend calls of a pass, in whatever way it ends, are appended
    to the log, and each is either the creation of the user of a requested
    relation that had no complete grant, or the deletion of the user of a
    relation of the endpoint that had a complete grant and is not requested
    any more.  No user of a requested relation is deleted and none is created
    twice over an existing grant. *)
Theorem reconcile_users_calls st st' res :
  reconcile_users endpoint rw ro shell st = (st', res) ->
  exists extra,
    calls st' = (calls st ++ extra)%list
    /\ Forall (fun c =>
         (exists u, u ∈ requested endpoint
                    /\ has_all_keys (my_app st (requested_relation u)) = false
                    /\ c = CreateUser
                             (_get_username (requested_relation u)
                                (mysql_shell.username shell))
                             (_database u))
         \/ (exists r, r ∈ endpoint
                       /\ has_all_keys (my_app st r) = true
                       /\ rel_in r (requested_relation <$> requested endpoint) = false
                       /\ c = DeleteUser
                                (_get_username r (mysql_shell.username shell))))
       extra.
Proof.
  intros [(st1 & H1 & H2)|(e & H1 & _)]%reconcile_users_inv.
  - destruct (create_loop_calls _ (requested_rel_in endpoint) _ _ _ H1)
      as (extra1 & Hc1 & HF1).
    destruct (delete_loop_calls _ _ _ _ H2) as (extra2 & Hc2 & HF2).
    exists (extra1 ++ extra2)%list. split; [by rewrite Hc2, Hc1, app_assoc|].
    apply Forall_app. split.
    + eapply Forall_impl; [exact HF1|]. intros c (u & ? & ? & ->). left. eauto.
    + eapply Forall_impl; [exact HF2|]. intros c (x & [Hin Hk]%elem_of_created & Hreq & ->).
      right. exists (created_relation x). split_and!; [done| |done|done].
      destruct (create_loop_effect _ _ _ _ _ (requested_rel_in endpoint) _ _ _ H1
                  (created_relation x)) as [Heq|(? & _)]; congruence.
  - destruct (create_loop_calls _ (requested_rel_in endpoint) _ _ _ H1)
      as (extra1 & Hc1 & HF1).
    exists extra1. split; [done|].
    eapply Forall_impl; [exact HF1|]. intros c (u & ? & ? & ->). left. eauto.
Qed.

End calls.

Lemma reconcile_users_calls_witness :
  exists extra,
    calls sample_state = (calls empty_state ++ extra)%list
    /\ Forall (fun c =>
         (exists u, u ∈ requested sample_endpoint
                    /\ has_all_keys (my_app empty_state (requested_relation u)) = false
                    /\ c = CreateUser
                             (_get_username (requested_relation u) "relation-7")
                             (_database u))
         \/ (exists r, r ∈ sample_endpoint
                       /\ has_all_keys (my_app empty_state r) = true
                       /\ rel_in r (requested_relation <$> requested sample_endpoint)
                          = false
                       /\ c = DeleteUser (_get_username r "relation-7")))
       extra.
Proof.
  apply (reconcile_users_calls sample_endpoint "rw.sock" "ro.sock" reliable_shell
           empty_state sample_state (Ok tt)).
  vm_compute. reflexivity.
Defined.

(** *** A pass over relations with distinct ids *)


Lemma requested_NoDup endpoint :
  NoDup (id <$> endpoint) ->
  NoDup (id <$> (requested_relation <$> requested endpoint)).
Proof.
  induction endpoint as [|r endpoint IH]; [done|].
  rewrite fmap_cons. intros [Hr Hnd]%NoDup_cons. unfold requested. simpl.
  fold (requested endpoint).
  destruct (_RelationThatRequestedUser__init__ r) as [u|e] eqn:Hu; [|by apply IH].
  rewrite !fmap_cons, (init_ok_relation _ _ Hu). apply NoDup_cons. split; [|by apply IH].
  intros (r' & Hid & (u' & -> & Hu')%list_elem_of_fmap)%list_elem_of_fmap.
  apply Hr. apply list_elem_of_fmap. exists (requested_relation u').
  split; [done | by apply requested_in_endpoint].
Qed.

Section distinct_ids.
Variables (endpoint : list RemoteRelation) (rw ro : string).
Variable shell : mysql_shell.Shell.

Lemma create_loop_grants l :
  NoDup (id <$> (requested_relation <$> l)) ->
  (forall u, u ∈ l -> rel_in (requested_relation u) endpoint = true) ->
  forall st st',
    for_ l (create_missing endpoint rw ro shell) st = (st', Ok tt) ->
    (forall u, u ∈ l -> has_all_keys (my_app st (requested_relation u)) = false ->
       exists password,
         my_app st' (requested_relation u)
         = grant_bag (my_app st (requested_relation u)) (_database u)
             (_get_username (requested_relation u) (mysql_shell.username shell))
             password rw ro)
    /\ ((forall u, u ∈ l -> has_all_keys (my_app st (requested_relation u)) = false) ->
        calls st' = (calls st ++ (create_call shell <$> l))%list).
Proof.
  induction l as [|u l IH]; intros Hnd Hl st st' Hrun.
  { inversion Hrun; subst. split; [by intros u ?%elem_of_nil|].
    intros _. by rewrite app_nil_r. }
  rewrite !fmap_cons in Hnd. apply NoDup_cons in Hnd as [Hu Hnd].
  assert (Hin : rel_in (requested_relation u) endpoint = true) by (apply Hl; left).
  assert (Hl' : forall u', u' ∈ l -> rel_in (requested_relation u') endpoint = true)
    by (intros; apply Hl; by right).
  simpl in Hrun. apply bind_inv in Hrun as [(st1 & [] & H1 & Hrest)|(e & _ & ?)];
    [|discriminate].
  destruct (IH Hnd Hl' _ _ Hrest) as [IHbags IHcalls].
  assert (Hother : forall u', u' ∈ l ->
            my_app st1 (requested_relation u') = my_app st (requested_relation u')).
  { intros u' Hu'. apply create_missing_effect in H1 as [H1 _]; [|done].
    destruct (H1 (requested_relation u')) as [?|(Hid & _)]; [done|].
    destruct Hu. rewrite Hid. apply list_elem_of_fmap.
    exists (requested_relation u'). split; [done|]. apply list_elem_of_fmap. eauto. }
  split.
  - intros u' [->|Hu']%elem_of_cons Hk.
    + rewrite create_missing_eq, Hk, create_database_and_user_eq in H1 by done.
      destruct (mysql_shell.create_answer _ _ _ _) as [password|]; [|discriminate].
      inversion H1; subst st1. exists password.
      destruct (create_loop_effect _ _ _ _ _ Hl' _ _ _ Hrest (requested_relation u))
        as [->|(_ & Hno & _)].
      * by rewrite my_app_set_bag, decide_True.
      * rewrite my_app_set_bag, decide_True, has_all_keys_grant_bag in Hno by done.
        discriminate.
    + destruct (IHbags u' Hu') as [password Hbag]; [by rewrite Hother|].
      exists password. by rewrite Hbag, Hother.
  - intros Hall. rewrite IHcalls.
    + rewrite create_missing_eq, Hall, create_database_and_user_eq in H1
        by (done || left).
      destruct (mysql_shell.create_answer _ _ _ _) as [password|]; [|discriminate].
      inversion H1; subst st1. simpl. by rewrite <- app_assoc.
    + intros u' Hu'. rewrite Hother by done. apply Hall. by right.
Qed.


(** X12: over relations with distinct ids none of which has a complete
    grant, a pass that runs to its end issues exactly one creation call for
    each requested relation, in the order of the endpoint, and no deletion. *)
Theorem reconcile_users_first_pass st st' :
  NoDup (id <$> endpoint) ->
  (forall r, r ∈ endpoint -> has_all_keys (my_app st r) = false) ->
  reconcile_users endpoint rw ro shell st = (st', Ok tt) ->
  calls st'
  = (calls st
     ++ ((fun u => CreateUser
                     (_get_username (requested_relation u) (mysql_shell.username shell))
                     (_database u)) <$> requested endpoint))%list.
Proof.
  intros Hnd Hnone Hrun.
  apply reconcile_users_inv in Hrun as [(st1 & H1 & H2)|(e & _ & ?)]; [|discriminate].
  destruct (create_loop_grants _ (requested_NoDup _ Hnd) (requested_rel_in endpoint)
              _ _ H1) as [_ Hcalls].
  rewrite delete_loop_noop in H2.
  - inversion H2; subst st'. apply Hcalls.
    intros u Hu. apply Hnone. by apply requested_in_endpoint.
  - intros c [Hin Hk]%elem_of_created.
    destruct (create_loop_effect _ _ _ _ _ (requested_rel_in endpoint) _ _ _ H1
                (created_relation c)) as [Heq|(? & _)]; [|done].
    rewrite Heq, Hnone in Hk by done. discriminate.
Qed.

End distinct_ids.

Lemma sample_endpoint_NoDup : NoDup (id <$> sample_endpoint).
Proof. apply (bool_decide_unpack _). vm_compute. exact I. Qed.


Lemma reconcile_users_first_pass_witness :
  calls sample_state = [CreateUser "relation-7-1" "blog"; CreateUser "relation-7-5" "cms"].
Proof.
  apply (reconcile_users_first_pass sample_endpoint "rw.sock" "ro.sock"
           reliable_shell empty_state sample_state).
  - exact sample_endpoint_NoDup.
  - intros r _. vm_compute. reflexivity.
  - vm_compute. reflexivity.
Defined.

(** X13: after [delete_all_databags] no relation of the endpoint holds a
    complete grant, and running it again changes nothing. *)
Theorem delete_all_databags_idempotent endpoint st :
  let out := delete_all_databags (E := mysql_shell.exn) endpoint st in
  complete_ids endpoint out.1 = ∅
  /\ delete_all_databags (E := mysql_shell.exn) endpoint out.1 = (out.1, Ok tt).
Proof.
  intros out. subst out.
  destruct (delete_all_databags_effect endpoint st) as (st' & Hrun & _ & Hbags).
  rewrite Hrun. simpl.
  assert (Hnone : forall r, r ∈ endpoint -> has_all_keys (my_app st' r) = false).
  { intros r Hin. rewrite Hbags.
    replace (rel_in r endpoint) with true by (symmetry; apply rel_in_spec; eauto).
    simpl. by destruct (has_all_keys (my_app st r)) eqn:Hk. }
  assert (Hcreated : omap (_RelationWithCreatedUser__init__ st') endpoint = []).
  { destruct (omap _ endpoint) as [|c l] eqn:Hc; [done|].
    assert (c ∈ omap (_RelationWithCreatedUser__init__ st') endpoint) as Hin
      by (rewrite Hc; left).
    apply elem_of_created in Hin as [Hin Hk]. rewrite Hnone in Hk by done.
    discriminate. }
  split.
  - apply set_eq. intros i. unfold complete_ids.
    rewrite elem_of_list_to_set, list_elem_of_fmap. split; [|set_solver].
    intros (r & -> & [Hk Hin]%list_elem_of_filter). rewrite Hnone in Hk by done.
    discriminate.
  - unfold delete_all_databags, bind, _created_users. by rewrite Hcreated.
Qed.

End reconcile_extras.

(** ** More on upstream resolution *)

Section upstream_extras.
Import database_requires.

Lemma ConnectionInformation__init__several is_leader r1 r2 rest st :
  ConnectionInformation__init__ is_leader (r1 :: r2 :: rest) st
  = (st, Raise AssertionError).
Proof. reflexivity. Qed.

Lemma occurrences_app c s1 s2 :
  occurrences c (s1 +:+ s2) = occurrences c s1 + occurrences c s2.
Proof. induction s1 as [|c' s1 IH]; [done|]. simpl. rewrite IH. lia. Qed.

Lemma split_app c s1 s2 :
  occurrences c s1 = 0 ->
  split c (s1 +:+ String c s2) = s1 :: split c s2.
Proof.
  induction s1 as [|c' s1 IH]; simpl.
  - intros _. by rewrite Ascii.eqb_refl.
  - destruct (Ascii.eqb c' c); [discriminate|]. simpl. intros Hs. by rewrite IH.
Qed.

(** The outcomes of [ConnectionInformation.__init__], by the relations. *)
Lemma init_outcome_cases is_leader relations st :
  let out := (ConnectionInformation__init__ is_leader relations st).2 in
  (relations = [] /\ out = Raise (_MissingRelation _MissingRelation__init__args))
  \/ (exists r1 r2 rest, relations = r1 :: r2 :: rest /\ out = Raise AssertionError)
  \/ (exists r, relations = [r] /\ breaking r = true
                /\ out = Raise (_RelationBreaking _MissingRelation__init__args))
  \/ (exists r, relations = [r] /\ breaking r = false /\ out = expected_outcome r).
Proof.
  destruct relations as [|r [|r2 rest]]; cbv zeta.
  - by left.
  - right; right. rewrite ConnectionInformation__init__eq. simpl.
    destruct (breaking r) eqn:Hb; [left | right]; eauto.
  - right; left. eauto 10.
Qed.

Lemma expected_outcome_cases r :
  expected_outcome r = Raise (upstream_waiting r)
  \/ expected_outcome r = Raise AssertionError
  \/ expected_outcome r = Raise IndexError
  \/ exists info, expected_outcome r = Ok info.
Proof.
  unfold expected_outcome. repeat case_match; eauto 10.
Qed.

Lemma connection_information_iff_aux is_leader relations st info :
  (ConnectionInformation__init__ is_leader relations st).2 = Ok info
  <-> exists relation e,
        relations = [relation]
        /\ breaking relation = false
        /\ remote_app relation !! "endpoints" = Some e
        /\ occurrences "," e = 0
        /\ split ":" e !! 0 = Some (host info)
        /\ split ":" e !! 1 = Some (port info)
        /\ remote_app relation !! "username" = Some (username info)
        /\ remote_app relation !! "password" = Some (password info).
Proof.
  split.
  - intros Hok.
    destruct (init_outcome_cases is_leader relations st)
      as [[_ H]|[(? & ? & ? & _ & H)|[(? & _ & _ & H)|(r & -> & Hb & H)]]];
      rewrite Hok in H; try discriminate.
    exists r. unfold expected_outcome in H.
    destruct (remote_app r !! "endpoints") as [e|]; [|discriminate]. exists e.
    destruct (decide (occurrences "," e = 0)) as [Hcomma|]; [|discriminate].
    destruct (decide (occurrences ":" e = 0)) as [|Hcolon]; [discriminate|].
    destruct (remote_app r !! "username") as [u|]; [|discriminate].
    destruct (remote_app r !! "password") as [p|]; [|discriminate].
    injection H as ->. simpl.
    pose proof (split_length ":" e) as Hlen.
    destruct (split ":" e) as [|h [|p' rest]]; simpl in *; [done|lia|].
    by split_and!.
  - intros (r & e & -> & Hb & He & Hcomma & Hhost & Hport & Hu & Hp).
    rewrite ConnectionInformation__init__eq, Hb. simpl.
    unfold expected_outcome. rewrite He, Hu, Hp, Hhost, Hport.
    rewrite decide_True by done.
    pose proof (split_length ":" e) as Hlen.
    destruct (decide (occurrences ":" e = 0)) as [Hcolon|_].
    + rewrite Hcolon in Hlen. destruct (split ":" e) as [|h [|p' rest]]; done.
    + by destruct info.
Qed.

(** X14: [ConnectionInformation()] succeeds exactly when there is one
    relation, not tearing down, whose remote bag has [username], [password]
    and an [endpoints] value without comma and with a colon; the host and the
    port are the first two colon-separated parts of that value and the
    credentials are those of the remote bag. *)
Theorem connection_information_iff is_leader relations st info :
  (ConnectionInformation__init__ is_leader relations st).2 = Ok info
  <-> exists relation e,
        relations = [relation]
        /\ breaking relation = false
        /\ remote_app relation !! "endpoints" = Some e
        /\ occurrences "," e = 0
        /\ split ":" e !! 0 = Some (host info)
        /\ split ":" e !! 1 = Some (port info)
        /\ remote_app relation !! "username" = Some (username info)
        /\ remote_app relation !! "password" = Some (password info).
Proof. apply connection_information_iff_aux. Qed.

(** X15: an [endpoints] value written as host, colon, port, with neither
    comma nor colon inside the host or the port, is read back as that host
    and that port. *)
Theorem connection_information_host_port is_leader relation st h p u pw :
  breaking relation = false ->
  remote_app relation !! "endpoints" = Some (h +:+ ":" +:+ p) ->
  occurrences "," h = 0 -> occurrences ":" h = 0 ->
  occurrences "," p = 0 -> occurrences ":" p = 0 ->
  remote_app relation !! "username" = Some u ->
  remote_app relation !! "password" = Some pw ->
  (ConnectionInformation__init__ is_leader [relation] st).2
  = Ok {| host := h; port := p; username := u; password := pw |}.
Proof.
  intros Hb He Hch Hh Hcp Hp Hu Hpw.
  apply connection_information_iff_aux.
  exists relation, (h +:+ ":" +:+ p). simpl.
  change (":" +:+ p) with (String ":" p).
  rewrite (split_app ":" h p Hh), (split_no_separator ":" p Hp).
  split_and!; try done.
  rewrite occurrences_app. simpl. lia.
Qed.

Lemma connection_information_iff_witness :
  (ConnectionInformation__init__ false [complete_upstream] empty_state).2
  = Ok {| host := "10.0.0.5"; port := "3306";
          username := "relation-7"; password := "hunter2" |}.
Proof.
  apply connection_information_iff.
  exists complete_upstream, "10.0.0.5:3306". vm_compute. by split_and!.
Defined.

Lemma connection_information_host_port_witness :
  (ConnectionInformation__init__ true [complete_upstream] empty_state).2
  = Ok {| host := "10.0.0.5"; port := "3306";
          username := "relation-7"; password := "hunter2" |}.
Proof.
  apply (connection_information_host_port true complete_upstream empty_state
           "10.0.0.5" "3306" "relation-7" "hunter2"); vm_compute; reflexivity.
Defined.

(** X16: the module-level resolution lets an exception out in two cases
    only: [AssertionError] when there is more than one relation or when the
    one relation, not tearing down, has a comma in its [endpoints] value, and
    [IndexError] when that value has neither comma nor colon. *)
Theorem resolution_raises_iff is_leader relations st e :
  (resolution is_leader relations st).2 = Raise e
  <-> (e = AssertionError
       /\ (2 <= length relations
           \/ exists r v, relations = [r] /\ breaking r = false
                /\ remote_app r !! "endpoints" = Some v /\ occurrences "," v <> 0))
      \/ (e = IndexError
          /\ exists r v, relations = [r] /\ breaking r = false
               /\ remote_app r !! "endpoints" = Some v
               /\ occurrences "," v = 0 /\ occurrences ":" v = 0).
Proof.
  rewrite resolution_handled.
  destruct (init_outcome_cases is_leader relations st)
    as [[-> ->]|[(? & ? & ? & -> & ->)|[(r & -> & Hb & ->)|(r & -> & Hb & ->)]]];
    simpl.
  - split; [discriminate|].
    intros [(_ & [?|(? & ? & ? & _)])|(_ & ? & ? & ? & _)]; (done || lia).
  - split.
    + intros [= <-]. left. split; [done|]. left. lia.
    + intros [[-> _]|(_ & ? & ? & ? & _)]; done.
  - split; [discriminate|].
    intros [(_ & [?|(? & ? & [= <-] & ? & _)])|(_ & ? & ? & [= <-] & ? & _)];
      (lia || congruence).
  - unfold expected_outcome, upstream_waiting.
    destruct (remote_app r !! "endpoints") as [v|] eqn:Hv.
    + destruct (decide (occurrences "," v = 0)) as [Hcomma|Hcomma].
      * destruct (decide (occurrences ":" v = 0)) as [Hcolon|Hcolon].
        -- simpl. split.
           ++ intros [= <-]. right. split; [done|]. exists r, v. by split_and!.
           ++ intros [(_ & [?|(? & ? & [= <-] & _ & Hv' & ?)])|[-> _]];
                [lia | congruence | done].
        -- destruct (remote_app r !! "username"), (remote_app r !! "password");
             simpl; (split; [discriminate|]);
             intros [(_ & [?|(? & ? & [= <-] & _ & Hv' & ?)])
                    |(_ & ? & ? & [= <-] & _ & Hv' & _ & ?)];
             (lia || congruence).
      * simpl. split.
        -- intros [= <-]. left. split; [done|]. right. exists r, v. by split_and!.
        -- intros [[-> _]|(_ & ? & ? & [= <-] & _ & Hv' & ? & _)];
             [done | congruence].
    + simpl. split; [discriminate|].
      intros [(_ & [?|(? & ? & [= <-] & _ & ? & _)])|(_ & ? & ? & [= <-] & _ & ? & _)];
        (lia || congruence).
Qed.

Lemma resolution_raises_iff_witness :
  (resolution true [no_port_upstream] empty_state).2 = Raise IndexError.
Proof.
  apply resolution_raises_iff. right. split; [done|].
  exists no_port_upstream, "localhost". vm_compute. by split_and!.
Defined.

(** X17: when the module-level resolution returns, exactly one of
    [connection_info] and [status] is set; the status is a [charm.Status]
    object, either Blocked "Missing relation: backend-database" or the
    Waiting status naming the remote application of the one relation; and
    [relation_breaking] is set exactly when the one relation is tearing
    down. *)
Theorem resolution_result_shape is_leader relations st res :
  (resolution is_leader relations st).2 = Ok res ->
  (is_Some (connection_info res) <-> status res = None)
  /\ (status res = None
      \/ status res = Some (VStatus (BlockedStatus "Missing relation: backend-database"))
      \/ exists r, relations = [r]
           /\ status res
              = Some (VStatus (WaitingStatus
                        ("Waiting for " +:+ _remote_app_name r
                         +:+ " app on backend-database endpoint"))))
  /\ (relation_breaking res = true <-> exists r, relations = [r] /\ breaking r = true).
Proof.
  rewrite resolution_handled.
  destruct (init_outcome_cases is_leader relations st)
    as [[-> ->]|[(? & ? & ? & -> & ->)|[(r & -> & Hb & ->)|(r & -> & Hb & ->)]]];
    simpl; try discriminate.
  - intros [= <-]. simpl. split_and!.
    + split; [intros [? ?]; discriminate | discriminate].
    + right; by left.
    + split; [discriminate | intros (? & ? & _); discriminate].
  - intros [= <-]. simpl. split_and!.
    + split; [intros [? ?]; discriminate | discriminate].
    + right; by left.
    + split; [eauto | done].
  - destruct (expected_outcome_cases r) as [->|[->|[->|[info ->]]]];
      simpl; try discriminate; intros [= <-]; simpl; split_and!.
    + split; [intros [? ?]; discriminate | discriminate].
    + right; right. eauto.
    + split; [discriminate | intros (? & [= <-] & ?); congruence].
    + split; [done | eauto].
    + by left.
    + split; [discriminate | intros (? & [= <-] & ?); congruence].
Qed.

Lemma resolution_result_shape_witness :
  (is_Some (@None ConnectionInformation)
   <-> Some (VStatus (WaitingStatus "Waiting for mysql app on backend-database endpoint"))
       = None)
  /\ (false = true <-> exists r, [no_password_upstream] = [r] /\ breaking r = true).
Proof.
  destruct (resolution_result_shape false [no_password_upstream] empty_state
              {| connection_info := None; relation_breaking := false;
                 status := Some (VStatus (WaitingStatus
                             "Waiting for mysql app on backend-database endpoint")) |})
    as (Hexclusive & _ & Hbreaking).
  { vm_compute. reflexivity. }
  split; [exact Hexclusive | exact Hbreaking].
Defined.

End upstream_extras.

(** ** [main.py]: resolution followed by the leader's branch *)

Section main_properties.
Import database_provides.

Lemma resolution_calls is_leader upstream st :
  calls (database_requires.resolution is_leader upstream st).1 = calls st.
Proof.
  rewrite resolution_state.
  destruct upstream as [|u [|u2 rest]]; [done| |done].
  rewrite ConnectionInformation__init__eq. simpl. by destruct is_leader.
Qed.

(** Upstream resolution leaves the bags of the other relations alone. *)
Lemma resolution_other_bags is_leader upstream st r :
  (forall u, u ∈ upstream -> id u <> id r) ->
  my_app (database_requires.resolution is_leader upstream st).1 r = my_app st r.
Proof.
  intros Hr. rewrite resolution_state.
  destruct upstream as [|u [|u2 rest]]; [done| |done].
  rewrite ConnectionInformation__init__eq. simpl. destruct is_leader; [|done].
  rewrite my_app_set_bag, decide_False; [done|]. apply Hr. left.
Qed.

Lemma resolution_not_leader upstream st :
  (database_requires.resolution false upstream st).1 = st.
Proof.
  rewrite resolution_state.
  destruct upstream as [|u [|u2 rest]]; [done| |done].
  by rewrite ConnectionInformation__init__eq.
Qed.

(** The phase, once resolution has returned. *)
Lemma relations_phase_resolved event is_leader container_ready upstream downstream
    rw ro create_answer delete_answer st resolved :
  (database_requires.resolution is_leader upstream st).2 = Ok resolved ->
  main.relations_phase event is_leader container_ready upstream downstream rw ro
    create_answer delete_answer st
  = match event with
    | main.OtherEvent =>
        main.lift main.ShellError
          (if is_leader then
             if database_requires.relation_breaking resolved
             then delete_all_databags downstream
             else match database_requires.connection_info resolved with
                  | Some connection_info =>
                      if container_ready
                      then reconcile_users downstream rw ro
                             (main.shell connection_info create_answer delete_answer)
                      else ret tt
                  | None => ret tt
                  end
           else ret tt)
          (database_requires.resolution is_leader upstream st).1
    | _ => ((database_requires.resolution is_leader upstream st).1, Ok tt)
    end.
Proof.
  intros Hres. unfold main.relations_phase, bind, main.lift at 1.
  destruct (database_requires.resolution is_leader upstream st) as [st1 res].
  simpl in *. subst res. by destruct event.
Qed.

Lemma relations_phase_raised event is_leader container_ready upstream downstream
    rw ro create_answer delete_answer st e :
  (database_requires.resolution is_leader upstream st).2 = Raise e ->
  main.relations_phase event is_leader container_ready upstream downstream rw ro
    create_answer delete_answer st
  = ((database_requires.resolution is_leader upstream st).1,
     Raise (main.RequiresError e)).
Proof.
  intros Hres. unfold main.relations_phase, bind, main.lift at 1.
  destruct (database_requires.resolution is_leader upstream st) as [st1 res].
  simpl in *. by subst res.
Qed.

Lemma lift_state {E E' A} (f : E -> E') (m : M E A) st :
  (main.lift f m st).1 = (m st).1.
Proof. unfold main.lift. by destruct (m st) as [st' [a|e]]. Qed.

(** X18: a unit that is not the leader changes no relation bag and calls no
    backend, whatever the event and the relations. *)
Theorem relations_phase_not_leader event container_ready upstream downstream
    rw ro create_answer delete_answer st :
  (main.relations_phase event false container_ready upstream downstream rw ro
     create_answer delete_answer st).1 = st.
Proof.
  destruct (database_requires.resolution false upstream st) as [st1 [resolved|e]] eqn:Hres.
  - erewrite relations_phase_resolved by by rewrite Hres.
    rewrite resolution_not_leader. by destruct event.
  - erewrite relations_phase_raised by by rewrite Hres.
    by rewrite resolution_not_leader.
Qed.

(** X19: while the upstream connection is neither resolved nor tearing down
    (no relation, or remote keys missing), no backend call is issued and the
    bags of the downstream relations are left as they are, also on the
    leader. *)
Theorem relations_phase_unresolved event is_leader container_ready upstream downstream
    rw ro create_answer delete_answer st resolved r :
  (database_requires.resolution is_leader upstream st).2 = Ok resolved ->
  database_requires.connection_info resolved = None ->
  database_requires.relation_breaking resolved = false ->
  (forall u, u ∈ upstream -> id u <> id r) ->
  let out := main.relations_phase event is_leader container_ready upstream downstream
               rw ro create_answer delete_answer st in
  out.2 = Ok tt /\ calls out.1 = calls st /\ my_app out.1 r = my_app st r.
Proof.
  intros Hres Hinfo Hbreaking Hr out. subst out.
  rewrite (relations_phase_resolved _ _ _ _ _ _ _ _ _ _ _ Hres), Hinfo, Hbreaking.
  destruct event, is_leader; simpl;
    by rewrite resolution_calls, resolution_other_bags.
Qed.

Lemma relations_phase_unresolved_witness :
  let out := main.relations_phase main.OtherEvent true true [no_password_upstream]
               sample_endpoint "rw.sock" "ro.sock"
               (fun _ _ _ => Some "s3cret") (fun _ _ => true) empty_state in
  out.2 = Ok tt /\ calls out.1 = calls empty_state
  /\ my_app out.1 complete_client = my_app empty_state complete_client.
Proof.
  apply (relations_phase_unresolved main.OtherEvent true true [no_password_upstream]
           sample_endpoint "rw.sock" "ro.sock" (fun _ _ _ => Some "s3cret")
           (fun _ _ => true) empty_state
           {| database_requires.connection_info := None;
              database_requires.relation_breaking := false;
              database_requires.status :=
                Some (VStatus (WaitingStatus
                        "Waiting for mysql app on backend-database endpoint")) |}).
  - vm_compute. reflexivity.
  - reflexivity.
  - reflexivity.
  - intros u Hu. apply list_elem_of_singleton in Hu as ->. vm_compute. discriminate.
Defined.

(** X20: when the one upstream relation is tearing down, the leader empties
    the bag of every downstream relation that holds a complete grant, keeps
    the other downstream bags and issues no backend call. *)
Theorem relations_phase_upstream_breaking container_ready u downstream
    rw ro create_answer delete_answer st r :
  breaking u = true ->
  r ∈ downstream ->
  id u <> id r ->
  let out := main.relations_phase main.OtherEvent true container_ready [u] downstream
               rw ro create_answer delete_answer st in
  out.2 = Ok tt
  /\ calls out.1 = calls st
  /\ my_app out.1 r = (if has_all_keys (my_app st r) then ∅ else my_app st r).
Proof.
  intros Hb Hin Hid out. subst out.
  assert (Hother : forall u', u' ∈ [u] -> id u' <> id r)
    by (by intros u' ->%list_elem_of_singleton).
  erewrite relations_phase_resolved; cycle 1.
  { rewrite resolution_handled, ConnectionInformation__init__eq, Hb. reflexivity. }
  simpl.
  destruct (delete_all_databags_effect downstream
              (database_requires.resolution true [u] st).1)
    as (st' & Hrun & Hcalls & Hbags).
  unfold main.lift. rewrite Hrun. simpl.
  split_and!; [done|by rewrite Hcalls, resolution_calls|].
  rewrite Hbags, (resolution_other_bags _ _ _ _ Hother).
  replace (rel_in r downstream) with true; [done|].
  symmetry. apply rel_in_spec. eauto.
Qed.

Lemma relations_phase_upstream_breaking_witness :
  let out := main.relations_phase main.OtherEvent true true [breaking_upstream]
               sample_endpoint "rw.sock" "ro.sock"
               (fun _ _ _ => Some "s3cret") (fun _ _ => true) sample_state in
  out.2 = Ok tt /\ calls out.1 = calls sample_state
  /\ my_app out.1 complete_client = ∅.
Proof.
  destruct (relations_phase_upstream_breaking true breaking_upstream sample_endpoint
              "rw.sock" "ro.sock" (fun _ _ _ => Some "s3cret") (fun _ _ => true)
              sample_state complete_client) as (Hok & Hcalls & Hbag).
  - reflexivity.
  - set_solver.
  - vm_compute. discriminate.
  - split_and!; [exact Hok | exact Hcalls |]. rewrite Hbag. vm_compute. reflexivity.
Defined.

(** X21: with a resolved upstream connection and a ready container, the
    leader's pass names every grant it writes after the username that the
    upstream relation's remote bag gives: that username, a hyphen and the id
    of the downstream relation. *)
Theorem relations_phase_username upstream downstream rw ro create_answer delete_answer
    st st' res resolved connection_info r :
  (database_requires.resolution true upstream st).2 = Ok resolved ->
  database_requires.connection_info resolved = Some connection_info ->
  main.relations_phase main.OtherEvent true true upstream downstream rw ro
    create_answer delete_answer st = (st', res) ->
  (forall u, u ∈ upstream -> id u <> id r) ->
  has_all_keys (my_app st r) = false ->
  has_all_keys (my_app st' r) = true ->
  exists u name,
    upstream = [u]
    /\ remote_app u !! "username" = Some name
    /\ my_app st' r !! "username" = Some (name +:+ "-" +:+ pretty (id r)).
Proof.
  intros Hres Hinfo Hrun Hother Hno Hk.
  assert (Hinit : (database_requires.ConnectionInformation__init__ true upstream st).2
                  = Ok connection_info).
  { rewrite resolution_handled in Hres.
    destruct (database_requires.ConnectionInformation__init__ true upstream st).2
      as [info|e]; simpl in Hres.
    - injection Hres as <-. simpl in Hinfo. by injection Hinfo as ->.
    - destruct (_ || _); [|discriminate]. destruct (database_requires.args e);
        [discriminate|]. injection Hres as <-. discriminate. }
  apply connection_information_iff_aux in Hinit
    as (u & e & -> & Hb & _ & _ & _ & _ & Hname & _).
  exists u, (database_requires.username connection_info). split_and!; [done|done|].
  rewrite (relations_phase_resolved _ _ _ _ _ _ _ _ _ _ _ Hres), Hinfo in Hrun.
  assert (Hbreaking : database_requires.relation_breaking resolved = false).
  { rewrite resolution_handled, ConnectionInformation__init__eq, Hb in Hres.
    destruct (expected_outcome u) as [info|e']; simpl in Hres.
    - by injection Hres as <-.
    - destruct (_ || _); [|discriminate]. destruct (database_requires.args e');
        [discriminate|]. injection Hres as <-. discriminate. }
  rewrite Hbreaking in Hrun. unfold main.lift in Hrun.
  set (st1 := (database_requires.resolution true [u] st).1) in *.
  destruct (reconcile_users downstream rw ro
              (main.shell connection_info create_answer delete_answer) st1)
    as [st2 res2] eqn:Hpass.
  assert (st2 = st') as -> by (destruct res2; by inversion Hrun).
  assert (Hbag1 : my_app st1 r = my_app st r) by by apply resolution_other_bags.
  destruct (reconcile_users_effect _ _ _ _ _ _ _ r Hpass) as [Heq|[[_ [_ Hu]]|Heq]].
  - rewrite Heq, Hbag1 in Hk. congruence.
  - exact Hu.
  - rewrite Heq in Hk. discriminate.
Qed.

Lemma relations_phase_username_witness :
  exists u name,
    [complete_upstream] = [u]
    /\ remote_app u !! "username" = Some name
    /\ my_app (main.relations_phase main.OtherEvent true true [complete_upstream]
                 sample_endpoint "rw.sock" "ro.sock"
                 (fun _ _ _ => Some "s3cret") (fun _ _ => true) empty_state).1
         complete_client !! "username"
       = Some (name +:+ "-" +:+ pretty (id complete_client)).
Proof.
  apply (relations_phase_username [complete_upstream] sample_endpoint "rw.sock"
           "ro.sock" (fun _ _ _ => Some "s3cret") (fun _ _ => true) empty_state _
           (main.relations_phase main.OtherEvent true true [complete_upstream]
              sample_endpoint "rw.sock" "ro.sock"
              (fun _ _ _ => Some "s3cret") (fun _ _ => true) empty_state).2
           {| database_requires.connection_info :=
                Some {| database_requires.host := "10.0.0.5";
                        database_requires.port := "3306";
                        database_requires.username := "relation-7";
                        database_requires.password := "hunter2" |};
              database_requires.relation_breaking := false;
              database_requires.status := None |}
           {| database_requires.host := "10.0.0.5";
              database_requires.port := "3306";
              database_requires.username := "relation-7";
              database_requires.password := "hunter2" |}).
  - vm_compute. reflexivity.
  - reflexivity.
  - by destruct (main.relations_phase _ _ _ _ _ _ _ _ _ _).
  - intros u Hu. apply list_elem_of_singleton in Hu as ->. vm_compute. discriminate.
  - vm_compute. reflexivity.
  - vm_compute. reflexivity.
Defined.

End main_properties.

(** ** Bootstrapping the router *)

Section bootstrap_properties.
Import workload.

(** X22: what [_bootstrap_router] logs and raises does not depend on the
    password: two connections that agree on host, port and username, and to
    whose bootstrap commands the container answers alike, give the same log
    records and the same outcome. *)
Theorem _bootstrap_router_hides_password repr repr_list run_mysql_router info1 info2 :
  database_requires.host info1 = database_requires.host info2 ->
  database_requires.port info1 = database_requires.port info2 ->
  database_requires.username info1 = database_requires.username info2 ->
  run_mysql_router (_get_bootstrap_command info1 (database_requires.password info1))
  = run_mysql_router (_get_bootstrap_command info2 (database_requires.password info2)) ->
  _bootstrap_router repr repr_list run_mysql_router info1
  = _bootstrap_router repr repr_list run_mysql_router info2.
Proof.
  intros Hhost Hport Hname Hrun. unfold _bootstrap_router.
  rewrite Hrun, Hhost, Hport.
  replace (_get_bootstrap_command info1 "***")
    with (_get_bootstrap_command info2 "***"); [done|].
  unfold _get_bootstrap_command. by rewrite Hhost, Hport, Hname.
Qed.

Lemma _bootstrap_router_hides_password_witness :
  let connection password :=
    {| database_requires.host := "10.0.0.5"; database_requires.port := "3306";
       database_requires.username := "relation-7";
       database_requires.password := password |} in
  let container (command : list string) : result run_error string :=
    Raise (CalledProcessError "Error: cannot connect") in
  _bootstrap_router (fun s => s) (String.concat " ") container (connection "hunter2")
  = _bootstrap_router (fun s => s) (String.concat " ") container (connection "swordfish").
Proof.
  intros connection container.
  apply _bootstrap_router_hides_password; reflexivity.
Defined.

End bootstrap_properties.
